(** * Floor-plan editor (src/app/Canvas/Canvas.tsx)

    A shallow embedding of the two editors of the file:

    - [CanvasMy], the fixed-coordinate editor (lines 1-415): tables carry
      pixel positions, new tables are placed by rejection sampling and a
      drag is refused when it would collide;
    - [FloorPlan], the percentage-coordinate, multi-floor editor
      (lines 752-1093): the floor store, the load of the saved layout and
      the percentage/pixel conversion;
    - [TableView], the seat markers drawn around a round table
      (lines 510-571).

    A JavaScript [number] is modelled by a rational ([Q]) wherever the code
    only adds, multiplies, divides and compares, and by a real ([R]) where
    it calls [Math.cos] and [Math.sin]; rounding, infinities and NaN are
    outside the model.  A string is a [string] whose characters stand for
    code units below 256.  React state is passed explicitly: a handler is
    a function from the state of the last render to the state it sets. *)

From Stdlib Require Import Reals.
From Stdlib Require Import QArith Qround Qminmax ZArith List String Ascii Bool.
From Stdlib Require Import Lia Lqa.
From Stdlib Require Lra DecimalString.
Import ListNotations.

(** ** Comparisons of numbers, as booleans *)

Definition Qlt_bool (a b : Q) : bool := negb (Qle_bool b a).
Definition Qgt_bool (a b : Q) : bool := Qlt_bool b a.

(** ** [String.prototype.trim] *)

(** White space among the code units below 256: TAB, LF, VT, FF, CR, SP
    and NBSP. *)
Definition isWhiteSpace (c : ascii) : bool :=
  let n := nat_of_ascii c in
  ((9 <=? n) && (n <=? 13) || (n =? 32) || (n =? 160))%nat.

Definition isEmptyString (s : string) : bool :=
  match s with EmptyString => true | String _ _ => false end.

Fixpoint trimStart (s : string) : string :=
  match s with
  | EmptyString => EmptyString
  | String c r => if isWhiteSpace c then trimStart r else s
  end.

Fixpoint trimEnd (s : string) : string :=
  match s with
  | EmptyString => EmptyString
  | String c r =>
      let r' := trimEnd r in
      if isWhiteSpace c && isEmptyString r' then EmptyString else String c r'
  end.

Definition trim (s : string) : string := trimEnd (trimStart s).

(** A string is blank when it is empty or holds white space only. *)
Fixpoint blank (s : string) : bool :=
  match s with
  | EmptyString => true
  | String c r => isWhiteSpace c && blank r
  end.

(** What a handler did besides setting state. *)
Inductive Outcome : Type :=
  | Done                      (* ran to its end, silently *)
  | Returned                  (* left early, silently *)
  | Alert (message : string)  (* showed [alert(message)] *)
  | TypeError.                (* threw on a property of [undefined] *)

(** ** The fixed-coordinate editor, [CanvasMy] *)

Module CanvasMy.

Local Open Scope Q_scope.

Record Table : Type := mkTable {
  id : string;
  x : Q;
  y : Q;
  width : Q;
  height : Q;
  rotation : Q;
  seats : Z;
  number : string;
  isSelected : bool
}.

(** [dimensions], the size of the canvas container. *)
Record Dimensions : Type := mkDimensions {
  canvasWidth : Q;
  canvasHeight : Q
}.

(** The [useState] cells of the component. *)
Record State : Type := mkState {
  dimensions : Dimensions;
  tables : list Table;
  selectedTableId : option string;
  seatsForNewTable : Z;
  tableNumber : string
}.

(** [{ ...t, x: nx, y: ny }] *)
Definition withPosition (t : Table) (nx ny : Q) : Table :=
  mkTable (id t) nx ny (width t) (height t) (rotation t) (seats t)
          (number t) (isSelected t).

(** [{ ...t, rotation: r, x: nx, y: ny }] *)
Definition withRotation (t : Table) (r nx ny : Q) : Table :=
  mkTable (id t) nx ny (width t) (height t) r (seats t)
          (number t) (isSelected t).

(** What [{ ...position, x, y }] keeps. *)
Definition sameButPosition (t u : Table) : Prop :=
  id u = id t /\ width u = width t /\ height u = height t
  /\ rotation u = rotation t /\ seats u = seats t /\ number u = number t
  /\ isSelected u = isSelected t.

Definition withTables (s : State) (ts : list Table) : State :=
  mkState (dimensions s) ts (selectedTableId s) (seatsForNewTable s)
          (tableNumber s).

Definition withTableNumber (s : State) (n : string) : State :=
  mkState (dimensions s) (tables s) (selectedTableId s) (seatsForNewTable s) n.

Definition withSelectedTableId (s : State) (sel : option string) : State :=
  mkState (dimensions s) (tables s) sel (seatsForNewTable s) (tableNumber s).

(** Lines 82-93.  The default of [buffer] is 1. *)
Definition tablesOverlap (table1 table2 : Table) (buffer : Q) : bool :=
  negb (Qlt_bool (x table1 + width table1 + buffer) (x table2)
        || Qgt_bool (x table1) (x table2 + width table2 + buffer)
        || Qlt_bool (y table1 + height table1 + buffer) (y table2)
        || Qgt_bool (y table1) (y table2 + height table2 + buffer)).

Definition defaultBuffer : Q := 1.
Definition defaultMaxAttempts : nat := 50.

Section Random.

(** [Math.random]: [random k] is the result of the [k]-th call.  A
    function that draws takes the number of calls made so far and returns
    it advanced. *)
Variable random : nat -> Q.

(** [Math.random().toString(36).substr(2, 9)], the text made of a draw. *)
Variable toString36 : Q -> string.

(** Lines 77-79. *)
Definition generateId (k : nat) : string * nat :=
  (String.append "table-" (toString36 (random k)), S k).

(** One turn of the [do] body, lines 108-116: the new position and
    whether it overlaps an existing table. *)
Definition drawPosition (dims : Dimensions) (existing : list Table)
    (position : Table) (k : nat) : Table * bool :=
  let position' :=
    withPosition position
      (random k * (canvasWidth dims - width position - 50) + 50)
      (random (S k) * (canvasHeight dims - height position - 50) + 50) in
  (position',
   existsb (fun table => tablesOverlap position' table defaultBuffer) existing).

(** The [do ... while (overlapping && attempts < maxAttempts)] loop, lines
    106-117; [remaining] is [maxAttempts - attempts] on entry of the body,
    so the body runs again when it found an overlap and
    [attempts + 1 < maxAttempts]. *)
Fixpoint placementLoop (dims : Dimensions) (existing : list Table)
    (remaining : nat) (position : Table) (k : nat) : Table * nat :=
  let '(position', overlapping) := drawPosition dims existing position k in
  match remaining with
  | S (S _ as remaining') =>
      if overlapping
      then placementLoop dims existing remaining' position' (S (S k))
      else (position', S (S k))
  | _ => (position', S (S k))
  end.

(** Lines 96-120. *)
Definition findNonOverlappingPosition (dims : Dimensions)
    (existing : list Table) (newTable : Table) (maxAttempts : nat)
    (k : nat) : Table * nat :=
  match existing with
  | [] => (newTable, k)
  | _ :: _ => placementLoop dims existing maxAttempts newTable k
  end.

(** The step function of lines 139-156. *)
Definition tableSize (seatsForNewTable : Z) : Q * Q :=
  if (seatsForNewTable <=? 2)%Z then (60, 60)
  else if (seatsForNewTable <=? 4)%Z then (80, 80)
  else if (seatsForNewTable <=? 6)%Z then (120, 80)
  else if (seatsForNewTable <=? 8)%Z then (160, 80)
  else (200, 80).

Definition missingNumberAlert : string := "Please enter a table number".
Definition duplicateNumberAlert : string :=
  "A table with this number already exists".

(** Lines 123-175. *)
Definition addTable (s : State) (k : nat) : Outcome * State * nat :=
  if isEmptyString (trim (tableNumber s)) then
    (Alert missingNumberAlert, s, k)
  else if existsb (fun table => String.eqb (number table) (tableNumber s))
                  (tables s) then
    (Alert duplicateNumberAlert, s, k)
  else
    let '(tableWidth, tableHeight) := tableSize (seatsForNewTable s) in
    let '(newId, k1) := generateId k in
    let newTable :=
      mkTable newId 0 0 tableWidth tableHeight 0 (seatsForNewTable s)
              (tableNumber s) false in
    let '(positionedTable, k2) :=
      findNonOverlappingPosition (dimensions s) (tables s) newTable
                                 defaultMaxAttempts k1 in
    (Done,
     withTableNumber (withTables s (tables s ++ [positionedTable])) "",
     k2).

End Random.

(** Lines 178-180. *)
Definition handleTableSelect (s : State) (tableId : string) : State :=
  withSelectedTableId s
    (match selectedTableId s with
     | Some cur => if String.eqb tableId cur then None else Some tableId
     | None => Some tableId
     end).

(** Lines 190-209; [r], [nx], [ny] are the node's rotation and position. *)
Definition handleTransformEnd (s : State) (nodeId : string) (r nx ny : Q)
    : State :=
  withTables s
    (map (fun table =>
            if String.eqb (id table) nodeId
            then withRotation table r nx ny else table)
         (tables s)).

(** What [handleDragEnd] does to the dragged node. *)
Inductive DragResult : Type :=
  | NoSuchTable
  | Reverted (toX toY : Q)   (* [node.position({x, y})] of the stored table *)
  | Committed.

(** Lines 212-250; [nx], [ny] are the node's position at the end of the
    drag. *)
Definition handleDragEnd (s : State) (nodeId : string) (nx ny : Q)
    : DragResult * State :=
  match find (fun table => String.eqb (id table) nodeId) (tables s) with
  | None => (NoSuchTable, s)
  | Some draggedTable =>
      let newPosition := withPosition draggedTable nx ny in
      let wouldOverlap :=
        existsb (fun table =>
                   negb (String.eqb (id table) nodeId)
                   && tablesOverlap newPosition table defaultBuffer)
                (tables s) in
      if wouldOverlap then
        (Reverted (x draggedTable) (y draggedTable), s)
      else
        (Committed,
         withTables s
           (map (fun table =>
                   if String.eqb (id table) nodeId then newPosition else table)
                (tables s)))
  end.

(** Lines 253-261. *)
Definition deleteSelectedTable (s : State) : State :=
  match selectedTableId s with
  | None => s
  | Some sel =>
      if isEmptyString sel then s
      else withSelectedTableId
             (withTables s
                (filter (fun table => negb (String.eqb (id table) sel))
                        (tables s)))
             None
  end.

(** Lines 40-47, [updateDimensions]: the size of the container is taken
    when both of its sides are truthy, that is not zero. *)
Definition updateDimensions (offsetWidth offsetHeight : Q) (s : State)
    : State :=
  if negb (Qeq_bool offsetHeight 0) && negb (Qeq_bool offsetWidth 0)
  then mkState (mkDimensions offsetWidth offsetHeight) (tables s)
               (selectedTableId s) (seatsForNewTable s) (tableNumber s)
  else s.

(** Lines 183-187; [onStage] tells whether the click hit the stage itself
    ([e.target === e.currentTarget]). *)
Definition handleStageClick (onStage : bool) (s : State) : State :=
  if onStage then withSelectedTableId s None else s.

(** What [handleWheel] reads and writes of the Konva stage. *)
Record Stage : Type := mkStage {
  scaleX : Q;
  scaleY : Q;
  stageX : Q;
  stageY : Q
}.

Definition scaleBy : Q := 1.1.

(** Lines 263-291; [deltaY] and [ctrlKey] are those of the wheel event,
    [(pointerX, pointerY)] is [stage.getPointerPosition()]. *)
Definition handleWheel (deltaY : Q) (ctrlKey : bool) (pointerX pointerY : Q)
    (stage : Stage) : Stage :=
  let oldScale := scaleX stage in
  let mousePointToX := (pointerX - stageX stage) / oldScale in
  let mousePointToY := (pointerY - stageY stage) / oldScale in
  let direction : Q := if Qgt_bool deltaY 0 then 1 else -1 in
  let direction := if ctrlKey then - direction else direction in
  let newScale :=
    if Qgt_bool direction 0 then oldScale * scaleBy else oldScale / scaleBy in
  mkStage newScale newScale
          (pointerX - mousePointToX * newScale)
          (pointerY - mousePointToY * newScale).

(** The point of the canvas that is drawn at [(px, py)] of the screen. *)
Definition canvasPoint (stage : Stage) (px py : Q) : Q * Q :=
  ((px - stageX stage) / scaleX stage, (py - stageY stage) / scaleX stage).

(** No two stored tables with different ids overlap, by the test the
    handlers use. *)
Definition overlapFree (ts : list Table) : Prop :=
  forall t u, In t ts -> In u ts -> id t <> id u ->
              tablesOverlap t u defaultBuffer = false.

(** No id and no number twice among the stored tables. *)
Definition uniqueTables (s : State) : Prop :=
  NoDup (map id (tables s)) /\ NoDup (map number (tables s)).

(** What a drag or a rotation keeps of a table. *)
Definition sameTable (t u : Table) : Prop :=
  id u = id t /\ number u = number t /\ seats u = seats t
  /\ width u = width t /\ height u = height t.

(** ** The editor as a machine *)

Inductive Command : Type :=
  | ChooseSeats (n : Z)
  | TypeNumber (v : string)
  | PressAdd
  | ClickTable (tableId : string)
  | ClickStage (onStage : bool)
  | EndTransform (nodeId : string) (r nx ny : Q)
  | EndDrag (nodeId : string) (nx ny : Q)
  | PressDelete
  | ResizeWindow (offsetWidth offsetHeight : Q).

(** The component state and the number of draws made so far. *)
Record World : Type := mkWorld {
  state : State;
  drawn : nat
}.

Section Machine.

Variable random : nat -> Q.
Variable toString36 : Q -> string.

Definition step (c : Command) (w : World) : World :=
  let s := state w in
  match c with
  | ChooseSeats n =>
      mkWorld (mkState (dimensions s) (tables s) (selectedTableId s) n
                       (tableNumber s)) (drawn w)
  | TypeNumber v => mkWorld (withTableNumber s v) (drawn w)
  | PressAdd =>
      let '(_, s', k') := addTable random toString36 s (drawn w) in
      mkWorld s' k'
  | ClickTable tableId => mkWorld (handleTableSelect s tableId) (drawn w)
  | ClickStage onStage => mkWorld (handleStageClick onStage s) (drawn w)
  | EndTransform nodeId r nx ny =>
      mkWorld (handleTransformEnd s nodeId r nx ny) (drawn w)
  | EndDrag nodeId nx ny =>
      mkWorld (snd (handleDragEnd s nodeId nx ny)) (drawn w)
  | PressDelete => mkWorld (deleteSelectedTable s) (drawn w)
  | ResizeWindow offsetWidth offsetHeight =>
      mkWorld (updateDimensions offsetWidth offsetHeight s) (drawn w)
  end.

(** [PressAdd] at a draw whose id no stored table carries. *)
Definition freshId (c : Command) (w : World) : Prop :=
  match c with
  | PressAdd =>
      ~ In (fst (generateId random toString36 (drawn w)))
           (map id (tables (state w)))
  | _ => True
  end.

(** The worlds reached from [start] by commands that add tables under
    fresh ids. *)
Inductive reachable (start : World) : World -> Prop :=
  | reach_start : reachable start start
  | reach_next (c : Command) (w : World) :
      reachable start w -> freshId c w -> reachable start (step c w).

End Machine.

End CanvasMy.

(** ** The percentage-coordinate, multi-floor editor, [RestaurantFloorPlan] *)

Module FloorPlan.

Local Open Scope Q_scope.

Inductive TableShape : Type := round | rectangle | square.
Inductive TableSize : Type := small | medium | large.

Record TableData : Type := mkTableData {
  id : string;
  xPercent : Q;
  yPercent : Q;
  seats : Z;
  shape : TableShape;
  size : TableSize;
  rotation : Q;
  name : option string          (* [name?: string] *)
}.

Module Floor.
Record FloorData : Type := mkFloorData {
  id : string;
  name : string;
  tables : list TableData
}.
End Floor.

(** Lines 752-755. *)
Definition toPercent (position dimension : Q) : Q :=
  (position / dimension) * 100.
Definition fromPercent (percent dimension : Q) : Q :=
  (percent * dimension) / 100.

(** The [useState] cells of the component, lines 763-820. *)
Record State : Type := mkState {
  stageWidth : Q;
  stageHeight : Q;
  aspectRatio : Q;
  floors : list Floor.FloorData;
  currentFloorId : string;
  newFloorName : string;
  selectedTable : option string;
  newTableType : TableShape;
  newTableSize : TableSize;
  newTableSeats : Z;
  newTableName : string;
  layoutName : string
}.

Definition setStage (s : State) (w h : Q) : State :=
  mkState w h (aspectRatio s) (floors s) (currentFloorId s) (newFloorName s)
    (selectedTable s) (newTableType s) (newTableSize s) (newTableSeats s)
    (newTableName s) (layoutName s).
Definition setFloors (s : State) (fs : list Floor.FloorData) : State :=
  mkState (stageWidth s) (stageHeight s) (aspectRatio s) fs (currentFloorId s)
    (newFloorName s) (selectedTable s) (newTableType s) (newTableSize s)
    (newTableSeats s) (newTableName s) (layoutName s).
Definition setCurrentFloorId (s : State) (i : string) : State :=
  mkState (stageWidth s) (stageHeight s) (aspectRatio s) (floors s) i
    (newFloorName s) (selectedTable s) (newTableType s) (newTableSize s)
    (newTableSeats s) (newTableName s) (layoutName s).
Definition setNewFloorName (s : State) (n : string) : State :=
  mkState (stageWidth s) (stageHeight s) (aspectRatio s) (floors s)
    (currentFloorId s) n (selectedTable s) (newTableType s) (newTableSize s)
    (newTableSeats s) (newTableName s) (layoutName s).
Definition setSelectedTable (s : State) (sel : option string) : State :=
  mkState (stageWidth s) (stageHeight s) (aspectRatio s) (floors s)
    (currentFloorId s) (newFloorName s) sel (newTableType s) (newTableSize s)
    (newTableSeats s) (newTableName s) (layoutName s).
Definition setNewTableType (s : State) (t : TableShape) : State :=
  mkState (stageWidth s) (stageHeight s) (aspectRatio s) (floors s)
    (currentFloorId s) (newFloorName s) (selectedTable s) t (newTableSize s)
    (newTableSeats s) (newTableName s) (layoutName s).
Definition setNewTableSize (s : State) (z : TableSize) : State :=
  mkState (stageWidth s) (stageHeight s) (aspectRatio s) (floors s)
    (currentFloorId s) (newFloorName s) (selectedTable s) (newTableType s) z
    (newTableSeats s) (newTableName s) (layoutName s).
Definition setNewTableSeats (s : State) (n : Z) : State :=
  mkState (stageWidth s) (stageHeight s) (aspectRatio s) (floors s)
    (currentFloorId s) (newFloorName s) (selectedTable s) (newTableType s)
    (newTableSize s) n (newTableName s) (layoutName s).
Definition setNewTableName (s : State) (n : string) : State :=
  mkState (stageWidth s) (stageHeight s) (aspectRatio s) (floors s)
    (currentFloorId s) (newFloorName s) (selectedTable s) (newTableType s)
    (newTableSize s) (newTableSeats s) n (layoutName s).
Definition setLayoutName (s : State) (n : string) : State :=
  mkState (stageWidth s) (stageHeight s) (aspectRatio s) (floors s)
    (currentFloorId s) (newFloorName s) (selectedTable s) (newTableType s)
    (newTableSize s) (newTableSeats s) (newTableName s) n.

(** Lines 768-805. *)
Definition initialFloors : list Floor.FloorData :=
  [ Floor.mkFloorData "floor-1" "Floor 1"
      [ mkTableData "1" 12.5 16.6 2 round small 0 (Some "T1"%string);
        mkTableData "2" 31.25 25 4 rectangle medium 0 (Some "T2"%string);
        mkTableData "3" 50 33.3 6 square large 0 (Some "T3"%string) ] ].

(** The state of the first render, with the default props
    [initialWidth = 800] and [initialHeight = 600]. *)
Definition initialState : State :=
  mkState 800 600 (800 / 600) initialFloors "floor-1" "" None
          round medium 4 "" "".

(** A JavaScript value used as a condition: [null] and the empty string
    are falsy. *)
Definition truthy (o : option string) : bool :=
  match o with
  | None => false
  | Some v => negb (isEmptyString v)
  end.

(** [o || d] on an optional string. *)
Definition orElse (o : option string) (d : string) : string :=
  match o with
  | Some v => if isEmptyString v then d else v
  | None => d
  end.

(** Lines 826-828: [floors.find(...) || floors[0]], then
    [currentFloor?.tables || []]. *)
Definition currentFloor (s : State) : option Floor.FloorData :=
  match find (fun floor => String.eqb (Floor.id floor) (currentFloorId s))
             (floors s) with
  | Some floor => Some floor
  | None => hd_error (floors s)
  end.

Definition tables (s : State) : list TableData :=
  match currentFloor s with
  | Some floor => Floor.tables floor
  | None => []
  end.

(** ** The saved layout *)

(** What [JSON.parse] makes of the text under the key
    ["restaurantLayout"]: a field that is missing or falsy is [None].  A
    parsed value that is itself falsy is a blob without fields. *)
Record Blob : Type := mkBlob {
  blobName : option string;
  blobFloors : option (list Floor.FloorData)
}.

(** [localStorage.getItem("restaurantLayout")] followed by [JSON.parse]. *)
Inductive SavedLayout : Type :=
  | NotSaved            (* [null], or the empty text: falsy *)
  | Unparsable          (* [JSON.parse] throws *)
  | Parsed (blob : Blob).

(** Lines 831-847, the effect run once after the first render. *)
Definition loadOnMount (saved : SavedLayout) (s : State) : State :=
  match saved with
  | NotSaved => s
  | Unparsable => s
  | Parsed parsed =>
      match blobFloors parsed with
      | None => s
      | Some parsedFloors =>
          let s1 := setFloors s parsedFloors in
          let s2 := match parsedFloors with
                    | first :: _ => setCurrentFloorId s1 (Floor.id first)
                    | [] => s1
                    end in
          setLayoutName s2 (orElse (blobName parsed) "")
      end
  end.

(** Nothing usable is found under the key: no text, a text that does not
    parse, or a value without a [floors] field. *)
Definition nothingToLoad (found : SavedLayout) : Prop :=
  found = NotSaved \/ found = Unparsable
  \/ exists parsed, found = Parsed parsed /\ blobFloors parsed = None.

Definition decimal (n : N) : string :=
  DecimalString.NilZero.string_of_uint (N.to_uint n).

Definition quoted (s : string) : string :=
  String (ascii_of_nat 34) (String.append s (String (ascii_of_nat 34) "")).

Definition floorNameAlert : string := "Please enter a floor name".
Definition onlyFloorAlert : string := "You cannot delete the only floor".

(** Lines 872-888; [now] is [Date.now()]. *)
Definition handleAddFloor (now : N) (s : State) : Outcome * State :=
  if isEmptyString (trim (newFloorName s)) then (Alert floorNameAlert, s)
  else
    let newFloorId := String.append "floor-" (decimal now) in
    let newFloor := Floor.mkFloorData newFloorId (newFloorName s) [] in
    (Done,
     setNewFloorName
       (setCurrentFloorId (setFloors s (floors s ++ [newFloor])) newFloorId)
       "").

(** Lines 890-893. *)
Definition handleSwitchFloor (floorId : string) (s : State) : State :=
  setCurrentFloorId (setSelectedTable s None) floorId.

(** Lines 895-913; [confirmDelete] is the answer to [window.confirm].
    [setFloors] has run when [updatedFloors[0].id] throws, so the emptied
    list is the state that is set. *)
Definition handleDeleteFloor (floorId : string) (confirmDelete : bool)
    (s : State) : Outcome * State :=
  if (List.length (floors s) <=? 1)%nat then (Alert onlyFloorAlert, s)
  else if negb confirmDelete then (Returned, s)
  else
    let updatedFloors :=
      filter (fun floor => negb (String.eqb (Floor.id floor) floorId))
             (floors s) in
    let s1 := setFloors s updatedFloors in
    if String.eqb floorId (currentFloorId s) then
      match updatedFloors with
      | first :: _ => (Done, setCurrentFloorId s1 (Floor.id first))
      | [] => (TypeError, s1)
      end
    else (Done, s1).

(** [floors.map(floor => floor.id !== currentFloorId ? floor : {...floor,
    tables: f(floor.tables)})], the shape of every table handler. *)
Definition onCurrentFloor (f : list TableData -> list TableData) (s : State)
    : State :=
  setFloors s
    (map (fun floor =>
            if negb (String.eqb (Floor.id floor) (currentFloorId s)) then floor
            else Floor.mkFloorData (Floor.id floor) (Floor.name floor)
                             (f (Floor.tables floor)))
         (floors s)).

Definition onTable (tableId : string) (f : TableData -> TableData)
    : list TableData -> list TableData :=
  map (fun table => if String.eqb (id table) tableId then f table else table).

(** Lines 916-924. *)
Definition handleTableSelect (tableId : string) (s : State) : State :=
  let same := match selectedTable s with
              | Some cur => String.eqb tableId cur
              | None => false
              end in
  let s1 := setSelectedTable s (if same then None else Some tableId) in
  if same then s1
  else match find (fun t => String.eqb (id t) tableId) (tables s) with
       | Some table => setNewTableName s1 (orElse (name table) "")
       | None => s1
       end.

(** Lines 927-946. *)
Definition handleTableDragEnd (tableId : string) (px py : Q) (s : State)
    : State :=
  onCurrentFloor
    (onTable tableId (fun table =>
       mkTableData (id table) (toPercent px (stageWidth s))
                   (toPercent py (stageHeight s)) (seats table) (shape table)
                   (size table) (rotation table) (name table)))
    s.

(** Lines 949-967. *)
Definition handleTableRotate (tableId : string) (r : Q) (s : State) : State :=
  onCurrentFloor
    (onTable tableId (fun table =>
       mkTableData (id table) (xPercent table) (yPercent table) (seats table)
                   (shape table) (size table) r (name table)))
    s.

(** Lines 970-995; [now] is [Date.now()]. *)
Definition handleAddTable (now : N) (s : State) : State :=
  let tableName :=
    if isEmptyString (newTableName s)
    then String.append "T" (decimal (N.of_nat (List.length (tables s) + 1)))
    else newTableName s in
  let newTable :=
    mkTableData (decimal now) 50 50 (newTableSeats s) (newTableType s)
                (newTableSize s) 0 (Some tableName) in
  setNewTableName
    (setSelectedTable
       (onCurrentFloor (fun ts => ts ++ [newTable]) s)
       (Some (id newTable)))
    "".

(** Lines 998-1012. *)
Definition handleRemoveTable (s : State) : State :=
  match selectedTable s with
  | Some sel =>
      if isEmptyString sel then s
      else setSelectedTable
             (onCurrentFloor
                (filter (fun table => negb (String.eqb (id table) sel))) s)
             None
  | None => s
  end.

(** Lines 1015-1030. *)
Definition handleUpdateTableSeats (n : Z) (s : State) : State :=
  match selectedTable s with
  | Some sel =>
      if isEmptyString sel then s
      else onCurrentFloor
             (onTable sel (fun table =>
                mkTableData (id table) (xPercent table) (yPercent table) n
                            (shape table) (size table) (rotation table)
                            (name table)))
             s
  | None => s
  end.

(** Lines 1033-1048. *)
Definition handleUpdateTableName (n : string) (s : State) : State :=
  match selectedTable s with
  | Some sel =>
      if isEmptyString sel then s
      else onCurrentFloor
             (onTable sel (fun table =>
                mkTableData (id table) (xPercent table) (yPercent table)
                            (seats table) (shape table) (size table)
                            (rotation table) (Some n)))
             s
  | None => s
  end.

Definition layoutNameAlert : string := "Please enter a layout name".

(** Lines 1051-1067: what is under the key afterwards.  A text written by
    [JSON.stringify] parses back to the value it was made of. *)
Definition handleSaveLayout (saved : SavedLayout) (s : State)
    : Outcome * SavedLayout :=
  if isEmptyString (trim (layoutName s)) then (Alert layoutNameAlert, saved)
  else
    (Alert (String.append "Layout "
              (String.append (quoted (layoutName s)) " saved successfully!")),
     Parsed (mkBlob (Some (layoutName s)) (Some (floors s)))).

(** Lines 1070-1093. *)
Definition handleLoadLayout (saved : SavedLayout) (s : State)
    : Outcome * State :=
  match saved with
  | NotSaved => (Alert "No saved layout found", s)
  | Unparsable => (Alert "Error loading layout", s)
  | Parsed parsed =>
      match blobFloors parsed with
      | None => (Alert "Error: Invalid layout data", s)
      | Some parsedFloors =>
          let s1 := setFloors s parsedFloors in
          let s2 := match parsedFloors with
                    | first :: _ => setCurrentFloorId s1 (Floor.id first)
                    | [] => s1
                    end in
          (Alert (String.append "Layout "
                    (String.append (quoted (orElse (blobName parsed) "Unnamed"))
                                   " loaded successfully!")),
           setSelectedTable (setLayoutName s2 (orElse (blobName parsed) ""))
                            None)
      end
  end.

(** Lines 851-859, [checkSize]. *)
Definition checkSize (containerWidth : Q) (s : State) : State :=
  setStage s containerWidth (containerWidth / aspectRatio s).

(** ** The saved layout as the load effect reads it *)

(** The values [JSON.parse] returns; an object lists its members in the
    order of the text. *)
#[warnings="-register-all"]
Inductive JValue : Type :=
  | JNull
  | JBool (b : bool)
  | JNumber (q : Q)
  | JString (text : string)
  | JArray (items : list JValue)
  | JObject (members : list (string * JValue)).

(** A value used as a condition: [null], [false], zero and the empty
    string are falsy, arrays and objects are truthy. *)
Definition truthyValue (v : JValue) : bool :=
  match v with
  | JNull => false
  | JBool b => b
  | JNumber q => negb (Qeq_bool q 0)
  | JString text => negb (isEmptyString text)
  | JArray _ | JObject _ => true
  end.

(** The member of an object under a key: of several members of one name
    [JSON.parse] keeps the last. *)
Fixpoint member (key : string) (members : list (string * JValue))
    : option JValue :=
  match members with
  | [] => None
  | (k, v) :: rest =>
      match member key rest with
      | Some later => Some later
      | None => if String.eqb k key then Some v else None
      end
  end.

(** [v.key] for the keys [floors], [name] and [id] on a value that is
    neither [null] nor [undefined]: [None] is [undefined], which is what
    a number, a boolean, a string and an array answer. *)
Definition property (key : string) (v : JValue) : option JValue :=
  match v with
  | JObject members => member key members
  | _ => None
  end.

(** [v.length] *)
Definition lengthOf (v : JValue) : option JValue :=
  match v with
  | JString text => Some (JNumber (inject_Z (Z.of_nat (String.length text))))
  | JArray items => Some (JNumber (inject_Z (Z.of_nat (List.length items))))
  | JObject members => member "length" members
  | _ => None
  end.

(** [v[0]] *)
Definition firstOf (v : JValue) : option JValue :=
  match v with
  | JString (String c _) => Some (JString (String c ""))
  | JArray (item :: _) => Some item
  | JObject members => member "0" members
  | _ => None
  end.

(** The calls of state setters, with the values they are given. *)
Inductive Setter : Type :=
  | SetFloors (v : JValue)
  | SetCurrentFloorId (v : option JValue)
  | SetLayoutName (v : JValue).

(** What is found under the key: nothing that counts ([null] or the empty
    text), a text [JSON.parse] throws on, or the parsed value. *)
Inductive Found : Type :=
  | NoText
  | BadText
  | Value (parsed : JValue).

Section LoadEffect.

(** The number JavaScript makes of a string, an array or an object when
    it compares it with a number; [None] is NaN. *)
Variable toNumber : JValue -> option Q.

(** [x > 0] *)
Definition greaterThanZero (x : option JValue) : bool :=
  match x with
  | None => false
  | Some JNull => false
  | Some (JBool b) => b
  | Some (JNumber q) => Qlt_bool 0 q
  | Some v => match toNumber v with
              | Some q => Qlt_bool 0 q
              | None => false
              end
  end.

(** Lines 831-847 on the parsed value itself: the setters the effect
    calls, in their order.  Reading [.id] of [undefined] or of [null]
    throws; the [catch] ends the effect there, after [setFloors]. *)
Definition loadEffect (found : Found) : list Setter :=
  match found with
  | NoText => []
  | BadText => []
  | Value parsed =>
      if negb (truthyValue parsed) then []
      else
        match property "floors" parsed with
        | None => []
        | Some parsedFloors =>
            if negb (truthyValue parsedFloors) then []
            else
              let named :=
                match property "name" parsed with
                | Some n => if truthyValue n then n else JString ""
                | None => JString ""
                end in
              if greaterThanZero (lengthOf parsedFloors) then
                match firstOf parsedFloors with
                | None => [SetFloors parsedFloors]
                | Some JNull => [SetFloors parsedFloors]
                | Some first =>
                    [SetFloors parsedFloors;
                     SetCurrentFloorId (property "id" first);
                     SetLayoutName named]
                end
              else [SetFloors parsedFloors; SetLayoutName named]
        end
  end.

End LoadEffect.

(** The three state cells the effect sets, holding what they are given. *)
Record Cells : Type := mkCells {
  floorsCell : JValue;
  currentFloorIdCell : option JValue;
  layoutNameCell : JValue
}.

Definition setCell (cells : Cells) (call : Setter) : Cells :=
  match call with
  | SetFloors v =>
      mkCells v (currentFloorIdCell cells) (layoutNameCell cells)
  | SetCurrentFloorId v =>
      mkCells (floorsCell cells) v (layoutNameCell cells)
  | SetLayoutName v =>
      mkCells (floorsCell cells) (currentFloorIdCell cells) v
  end.

Definition cellsAfter (calls : list Setter) (cells : Cells) : Cells :=
  fold_left setCell calls cells.

(** Floors and tables as JSON values, members in the order the source
    writes them; a table without name has no such member. *)
Definition shapeText (t : TableShape) : string :=
  match t with
  | round => "round"
  | rectangle => "rectangle"
  | square => "square"
  end.

Definition sizeText (z : TableSize) : string :=
  match z with
  | small => "small"
  | medium => "medium"
  | large => "large"
  end.

Definition tableValue (t : TableData) : JValue :=
  JObject
    ([("id", JString (id t));
      ("xPercent", JNumber (xPercent t));
      ("yPercent", JNumber (yPercent t));
      ("seats", JNumber (inject_Z (seats t)));
      ("shape", JString (shapeText (shape t)));
      ("size", JString (sizeText (size t)));
      ("rotation", JNumber (rotation t))]%string
     ++ match name t with
        | Some n => [("name"%string, JString n)]
        | None => []
        end).

Definition floorValue (f : Floor.FloorData) : JValue :=
  JObject [("id", JString (Floor.id f));
           ("name", JString (Floor.name f));
           ("tables", JArray (map tableValue (Floor.tables f)))]%string.

Definition floorsValue (fs : list Floor.FloorData) : JValue :=
  JArray (map floorValue fs).

(** The three cells of a state. *)
Definition cellsOf (s : State) : Cells :=
  mkCells (floorsValue (floors s)) (Some (JString (currentFloorId s)))
          (JString (layoutName s)).

(** A saved layout of the shape the page writes, as the value it parses
    to. *)
Definition foundOf (sv : SavedLayout) : Found :=
  match sv with
  | NotSaved => NoText
  | Unparsable => BadText
  | Parsed parsed =>
      Value
        (JObject
           (match blobName parsed with
            | Some n => [("name"%string, JString n)]
            | None => []
            end
            ++ match blobFloors parsed with
               | Some fs => [("floors"%string, floorsValue fs)]
               | None => []
               end))
  end.

(** Nothing usable is found: no text, a text that does not parse, a
    falsy value, or a value without a truthy [floors]. *)
Definition nothingUsable (found : Found) : Prop :=
  match found with
  | NoText | BadText => True
  | Value parsed =>
      truthyValue parsed = false
      \/ match property "floors" parsed with
         | Some parsedFloors => truthyValue parsedFloors = false
         | None => True
         end
  end.

(** ** The editor as a machine *)

(** What the user can do between two renders: the form fields, the
    buttons and the gestures on the stage. *)
Inductive Command : Type :=
  | TypeFloorName (v : string)
  | AddFloor (now : N)
  | SwitchFloor (floorId : string)
  | DeleteFloor (floorId : string) (confirmDelete : bool)
  | SelectTable (tableId : string)
  | ClickStage
  | DragTable (tableId : string) (px py : Q)
  | RotateTable (tableId : string) (r : Q)
  | ChooseShape (t : TableShape)
  | ChooseSize (z : TableSize)
  | ChooseSeats (n : Z)
  | TypeTableName (v : string)
  | AddTable (now : N)
  | RemoveTable
  | UpdateSeats (n : Z)
  | UpdateName (v : string)
  | TypeLayoutName (v : string)
  | SaveLayout
  | LoadLayout
  | Resize (containerWidth : Q).

(** The component state together with what is saved under the key. *)
Record World : Type := mkWorld {
  state : State;
  saved : SavedLayout
}.

Definition step (c : Command) (w : World) : World :=
  let s := state w in
  match c with
  | TypeFloorName v => mkWorld (setNewFloorName s v) (saved w)
  | AddFloor now => mkWorld (snd (handleAddFloor now s)) (saved w)
  | SwitchFloor floorId => mkWorld (handleSwitchFloor floorId s) (saved w)
  | DeleteFloor floorId confirmDelete =>
      mkWorld (snd (handleDeleteFloor floorId confirmDelete s)) (saved w)
  | SelectTable tableId => mkWorld (handleTableSelect tableId s) (saved w)
  | ClickStage => mkWorld (setSelectedTable s None) (saved w)
  | DragTable tableId px py =>
      mkWorld (handleTableDragEnd tableId px py s) (saved w)
  | RotateTable tableId r => mkWorld (handleTableRotate tableId r s) (saved w)
  | ChooseShape t => mkWorld (setNewTableType s t) (saved w)
  | ChooseSize z => mkWorld (setNewTableSize s z) (saved w)
  | ChooseSeats n => mkWorld (setNewTableSeats s n) (saved w)
  | TypeTableName v => mkWorld (setNewTableName s v) (saved w)
  | AddTable now => mkWorld (handleAddTable now s) (saved w)
  | RemoveTable => mkWorld (handleRemoveTable s) (saved w)
  | UpdateSeats n => mkWorld (handleUpdateTableSeats n s) (saved w)
  | UpdateName v => mkWorld (handleUpdateTableName v s) (saved w)
  | TypeLayoutName v => mkWorld (setLayoutName s v) (saved w)
  | SaveLayout => mkWorld s (snd (handleSaveLayout (saved w) s))
  | LoadLayout => mkWorld (snd (handleLoadLayout (saved w) s)) (saved w)
  | Resize containerWidth => mkWorld (checkSize containerWidth s) (saved w)
  end.

(** The first render followed by the load effect. *)
Definition mount (found : SavedLayout) : World :=
  mkWorld (loadOnMount found initialState) found.

Definition run (cs : list Command) (w : World) : World :=
  fold_left (fun w c => step c w) cs w.

Definition floorIds (s : State) : list string := map Floor.id (floors s).

(** A list of floors that is not empty and has no id twice. *)
Definition soundFloors (fs : list Floor.FloorData) : Prop :=
  fs <> [] /\ NoDup (map Floor.id fs).

(** A saved layout that brings in no floor list, or a sound one. *)
Definition soundSaved (sv : SavedLayout) : Prop :=
  match sv with
  | Parsed parsed =>
      match blobFloors parsed with
      | Some fs => soundFloors fs
      | None => True
      end
  | _ => True
  end.

(** [AddFloor] at a time whose id no stored floor carries. *)
Definition freshId (c : Command) (w : World) : Prop :=
  match c with
  | AddFloor now =>
      ~ In (String.append "floor-" (decimal now)) (floorIds (state w))
  | _ => True
  end.

(** The worlds reached from a mount by commands that add floors under
    fresh ids. *)
Inductive reachable (found : SavedLayout) : World -> Prop :=
  | reach_mount : reachable found (mount found)
  | reach_step (c : Command) (w : World) :
      reachable found w -> freshId c w -> reachable found (step c w).

(** The floor tabs offer the stored floors only: [SwitchFloor] and
    [DeleteFloor] come with the id of a stored floor. *)
Definition fromFloorTabs (c : Command) (w : World) : Prop :=
  match c with
  | SwitchFloor floorId => In floorId (floorIds (state w))
  | DeleteFloor floorId _ => In floorId (floorIds (state w))
  | _ => True
  end.

(** The worlds reached from a mount through the page: floors are added
    under fresh ids, switched to and deleted from their tabs. *)
Inductive onPage (found : SavedLayout) : World -> Prop :=
  | page_mount : onPage found (mount found)
  | page_step (c : Command) (w : World) :
      onPage found w -> freshId c w -> fromFloorTabs c w ->
      onPage found (step c w).

(** The commands that edit tables. *)
Definition editsTables (c : Command) : bool :=
  match c with
  | DragTable _ _ _ | RotateTable _ _ | AddTable _ | RemoveTable
  | UpdateSeats _ | UpdateName _ => true
  | _ => false
  end.

(** What an edit of tables keeps of a floor: its id and name, and all of
    it when it is not the floor with the id [current]. *)
Definition sameFloor (current : string) (f g : Floor.FloorData) : Prop :=
  Floor.id g = Floor.id f /\ Floor.name g = Floor.name f
  /\ (Floor.id f <> current -> g = f).

(** The active floor is a stored one. *)
Definition activeStored (s : State) : Prop :=
  In (currentFloorId s) (floorIds s).

(** Lines 1320-1344, the positions of the grid lines along a side of the
    stage cut in [parts]: [Math.floor(side / Math.max(50, side / parts))]
    lines, [Math.max(50, side / parts)] apart. *)
Definition gridLines (side parts : Q) : list Q :=
  map (fun i : nat => inject_Z (Z.of_nat i) * Qmax 50 (side / parts))
      (seq 0 (Z.to_nat (Qfloor (side / Qmax 50 (side / parts))))).

Definition verticalGridLines (s : State) : list Q :=
  gridLines (stageWidth s) 16.
Definition horizontalGridLines (s : State) : list Q :=
  gridLines (stageHeight s) 12.

(** All tables of all floors, floor after floor. *)
Definition allTables (s : State) : list TableData :=
  flat_map Floor.tables (floors s).

(** Lines 1373-1374: where a table is drawn on the stage. *)
Definition drawnAt (s : State) (table : TableData) : Q * Q :=
  (fromPercent (xPercent table) (stageWidth s),
   fromPercent (yPercent table) (stageHeight s)).

End FloorPlan.

(** ** The seat markers of a round table, [Table.renderTable] *)

Module TableView.

Import FloorPlan.
Local Open Scope R_scope.

(** [tableDimensions.round[size].radius], lines 476-480. *)
Definition roundRadius (sz : TableSize) : R :=
  match sz with
  | small => 25
  | medium => 35
  | large => 45
  end.

(** Lines 511-512. *)
Definition scaleFactor (stageWidth stageHeight : R) : R :=
  Rmin stageWidth stageHeight / 800.

Definition seatRadius (stageWidth stageHeight : R) : R :=
  6 * Rmax (1 / 2) (scaleFactor stageWidth stageHeight).

(** Line 537. *)
Definition scaledRadius (sz : TableSize) (stageWidth stageHeight : R) : R :=
  roundRadius sz * Rmax (1 / 2) (scaleFactor stageWidth stageHeight).

(** Line 560. *)
Definition seatDistance (sz : TableSize) (stageWidth stageHeight : R) : R :=
  scaledRadius sz stageWidth stageHeight
  + 10 * scaleFactor stageWidth stageHeight.

(** Line 559, the angle of seat [i] of [seats], in radians. *)
Definition seatAngle (seats : Z) (i : nat) : R :=
  (INR i * 2 * PI) / IZR seats.

(** Lines 558-570: the centre of the marker of seat [i], relative to the
    centre of the table. *)
Definition roundSeat (sz : TableSize) (seats : Z) (stageWidth stageHeight : R)
    (i : nat) : R * R :=
  let angle := seatAngle seats i in
  let d := seatDistance sz stageWidth stageHeight in
  (d * cos angle, d * sin angle).

(** [Array.from({ length: seats }).map((_, i) => ...)]: a negative length
    gives no element. *)
Definition roundSeats (sz : TableSize) (seats : Z) (stageWidth stageHeight : R)
    : list (R * R) :=
  map (roundSeat sz seats stageWidth stageHeight) (seq 0 (Z.to_nat seats)).

(** The distance of a point from the centre of the table. *)
Definition fromCentre (p : R * R) : R :=
  sqrt (fst p * fst p + snd p * snd p).

(** [Math.max(0.5, scaleFactor)], the factor the table itself is drawn
    with. *)
Definition tableScale (stageWidth stageHeight : R) : R :=
  Rmax (1 / 2) (scaleFactor stageWidth stageHeight).

(** [tableDimensions.rectangle[size]], lines 481-485. *)
Definition rectangleWidth (sz : TableSize) : R :=
  match sz with small => 60 | medium => 80 | large => 120 end.
Definition rectangleHeight (sz : TableSize) : R :=
  match sz with small => 40 | medium => 50 | large => 60 end.

(** [tableDimensions.square[size].width], lines 486-490. *)
Definition squareWidth (sz : TableSize) : R :=
  match sz with small => 40 | medium => 60 | large => 80 end.

(** Lines 602-641, the marker of seat [i] of a rectangular table.  On a
    whole number of seats [Math.ceil(seats / 2)] is [(seats + 1) / 2] and
    [Math.floor(seats / 2)] is [seats / 2], in the division of [Z] that
    rounds down. *)
Definition rectangleSeat (sz : TableSize) (seats : Z)
    (stageWidth stageHeight : R) (i : nat) : R * R :=
  let scale := scaleFactor stageWidth stageHeight in
  let scaledWidth := rectangleWidth sz * tableScale stageWidth stageHeight in
  let scaledHeight := rectangleHeight sz * tableScale stageWidth stageHeight in
  let longSideSeats := ((seats + 1) / 2)%Z in
  let shortSideSeats := (seats / 2)%Z in
  if (Z.of_nat i <? longSideSeats)%Z then
    ((scaledWidth / (IZR longSideSeats + 1)) * (INR i + 1) - scaledWidth / 2,
     if Nat.even i
     then - scaledHeight / 2 - 10 * scale
     else scaledHeight / 2 + 10 * scale)
  else
    let shortIndex := (Z.of_nat i - longSideSeats)%Z in
    (if Z.even shortIndex
     then - scaledWidth / 2 - 10 * scale
     else scaledWidth / 2 + 10 * scale,
     (scaledHeight / (IZR shortSideSeats + 1))
       * (IZR (shortIndex mod 2) + 1)
     - scaledHeight / 2).

Definition rectangleSeats (sz : TableSize) (seats : Z)
    (stageWidth stageHeight : R) : list (R * R) :=
  map (rectangleSeat sz seats stageWidth stageHeight)
      (seq 0 (Z.to_nat seats)).

(** Lines 672-710, the marker of seat [i] of a square table;
    [Math.ceil(seats / 4)] is [(seats + 3) / 4].  A side beyond the fourth
    leaves the marker at [(0, 0)], as the [switch] without a matching case
    does. *)
Definition squareSeat (sz : TableSize) (seats : Z)
    (stageWidth stageHeight : R) (i : nat) : R * R :=
  let scale := scaleFactor stageWidth stageHeight in
  let scaledSize := squareWidth sz * tableScale stageWidth stageHeight in
  let seatsPerSide := ((seats + 3) / 4)%Z in
  let side := (Z.of_nat i / seatsPerSide)%Z in
  let sidePosition := (Z.of_nat i mod seatsPerSide + 1)%Z in
  let seatSpacing := scaledSize / (IZR seatsPerSide + 1) in
  match side with
  | 0%Z => (IZR sidePosition * seatSpacing - scaledSize / 2,
            - scaledSize / 2 - 10 * scale)
  | 1%Z => (scaledSize / 2 + 10 * scale,
            IZR sidePosition * seatSpacing - scaledSize / 2)
  | 2%Z => (IZR sidePosition * seatSpacing - scaledSize / 2,
            scaledSize / 2 + 10 * scale)
  | 3%Z => (- scaledSize / 2 - 10 * scale,
            IZR sidePosition * seatSpacing - scaledSize / 2)
  | _ => (0, 0)
  end.

Definition squareSeats (sz : TableSize) (seats : Z)
    (stageWidth stageHeight : R) : list (R * R) :=
  map (squareSeat sz seats stageWidth stageHeight) (seq 0 (Z.to_nat seats)).

(** The marker at [along] on the side [side] of a square of width
    [scaledSize], [offset] away from the centre: top, right, bottom,
    left. *)
Definition onSide (side : Z) (along offset : R) : R * R :=
  match side with
  | 0%Z => (along, - offset)
  | 1%Z => (offset, along)
  | 2%Z => (along, offset)
  | _ => (- offset, along)
  end.

End TableView.

(** * Properties *)

(** ** Numbers and strings *)

Lemma Qlt_bool_iff (a b : Q) : Qlt_bool a b = true <-> (a < b)%Q.
Proof.
  unfold Qlt_bool. rewrite negb_true_iff.
  split; intros H.
  - apply Qnot_le_lt. intros Hle. apply Qle_bool_iff in Hle. congruence.
  - destruct (Qle_bool b a) eqn:E; [|reflexivity].
    apply Qle_bool_iff in E. exfalso. exact (Qlt_not_le _ _ H E).
Qed.

Lemma Qgt_bool_iff (a b : Q) : Qgt_bool a b = true <-> (b < a)%Q.
Proof. unfold Qgt_bool. apply Qlt_bool_iff. Qed.

Lemma isEmptyString_true (s : string) : isEmptyString s = true <-> s = EmptyString.
Proof. destruct s; simpl; split; congruence. Qed.

Lemma trimEnd_blank (s : string) :
  isEmptyString (trimEnd s) = blank s.
Proof.
  induction s as [|c r IH]; simpl; [reflexivity|].
  rewrite IH. destruct (isWhiteSpace c), (blank r); reflexivity.
Qed.

Lemma trimStart_blank (s : string) : blank (trimStart s) = blank s.
Proof.
  induction s as [|c r IH]; simpl; [reflexivity|].
  destruct (isWhiteSpace c) eqn:E; simpl; [exact IH|].
  rewrite E. reflexivity.
Qed.

(** [!s.trim()] holds exactly of the blank strings. *)
Lemma trim_blank (s : string) : isEmptyString (trim s) = blank s.
Proof. unfold trim. rewrite trimEnd_blank. apply trimStart_blank. Qed.

Example trim_inner_space : trim "  12 3 " = "12 3"%string.
Proof. reflexivity. Qed.

Example trim_tabs_only : trim (String (ascii_of_nat 9) " ") = ""%string.
Proof. reflexivity. Qed.

(** ** The fixed-coordinate editor *)

Module CanvasMyFacts.

Import CanvasMy.
Local Open Scope Q_scope.

(** *** The overlap test *)

(** C2.  [tablesOverlap a b buffer] answers [true] exactly when none of
    the four separating conditions holds: [a] ends, with the buffer, left
    of [b]; [a] starts right of the buffered end of [b]; and the same two
    on the vertical axis.  The test reads [x], [y], [width] and [height]
    only, so the rotation plays no part; the equivalence holds for every
    buffer, the non-negative ones among them. *)
Theorem tablesOverlap_separating_axis (a b : Table) (buffer : Q) :
  tablesOverlap a b buffer = true <->
  ~ (x a + width a + buffer < x b
     \/ x a > x b + width b + buffer
     \/ y a + height a + buffer < y b
     \/ y a > y b + height b + buffer).
Proof.
  unfold tablesOverlap.
  rewrite negb_true_iff, !orb_false_iff.
  rewrite <- !not_true_iff_false.
  rewrite !Qlt_bool_iff, !Qgt_bool_iff.
  tauto.
Qed.

Lemma tablesOverlap_false_iff (a b : Table) (buffer : Q) :
  tablesOverlap a b buffer = false <->
  (x a + width a + buffer < x b
   \/ x b + width b + buffer < x a
   \/ y a + height a + buffer < y b
   \/ y b + height b + buffer < y a).
Proof.
  unfold tablesOverlap.
  rewrite negb_false_iff, !orb_true_iff.
  rewrite !Qlt_bool_iff, !Qgt_bool_iff.
  tauto.
Qed.

(** C7.  The overlap test is symmetric in its two tables, for every
    buffer (the non-negative ones among them). *)
Theorem tablesOverlap_sym (a b : Table) (buffer : Q) :
  tablesOverlap a b buffer = tablesOverlap b a buffer.
Proof.
  destruct (tablesOverlap b a buffer) eqn:E.
  - apply not_false_iff_true. intros H.
    apply not_false_iff_true in E. apply E.
    apply tablesOverlap_false_iff in H. apply tablesOverlap_false_iff.
    tauto.
  - apply tablesOverlap_false_iff in E. apply tablesOverlap_false_iff.
    tauto.
Qed.

(** A rotated table overlaps what the unrotated one does. *)
Lemma tablesOverlap_ignores_rotation (a b : Table) (r nx ny buffer : Q) :
  tablesOverlap (withRotation a r nx ny) b buffer
  = tablesOverlap (withPosition a nx ny) b buffer.
Proof. reflexivity. Qed.

(** *** The placement search *)

Section Placement.

Variable random : nat -> Q.

Lemma sameButPosition_refl (t : Table) : sameButPosition t t.
Proof. unfold sameButPosition. tauto. Qed.

Lemma sameButPosition_trans (t u v : Table) :
  sameButPosition t u -> sameButPosition u v -> sameButPosition t v.
Proof.
  unfold sameButPosition. intros H1 H2.
  decompose [and] H1. decompose [and] H2. repeat split; congruence.
Qed.

Lemma drawPosition_frame dims existing position k :
  sameButPosition position (fst (drawPosition random dims existing position k)).
Proof. unfold sameButPosition. simpl. tauto. Qed.

Lemma placementLoop_frame dims existing remaining :
  forall position k,
    sameButPosition position
      (fst (placementLoop random dims existing remaining position k)).
Proof.
  induction remaining as [|n IH]; intros position k.
  - exact (drawPosition_frame dims existing position k).
  - cbn [placementLoop].
    destruct (drawPosition random dims existing position k) as [p ov] eqn:E.
    pose proof (drawPosition_frame dims existing position k) as Hp.
    rewrite E in Hp. cbn [fst] in Hp.
    destruct n as [|n']; [exact Hp|].
    destruct ov; [|exact Hp].
    eapply sameButPosition_trans; [exact Hp|apply IH].
Qed.

Lemma findNonOverlappingPosition_keeps dims existing newTable maxAttempts k :
  sameButPosition newTable
    (fst (findNonOverlappingPosition random dims existing newTable
                                     maxAttempts k)).
Proof.
  unfold findNonOverlappingPosition.
  destruct existing as [|t ts].
  - apply sameButPosition_refl.
  - apply (placementLoop_frame dims (t :: ts) maxAttempts newTable k).
Qed.

(** C10.  The table returned by [findNonOverlappingPosition] has the id,
    width, height, rotation, seats, number and selection flag of the
    candidate, whatever the existing tables, the attempt bound and the
    draws are: only [x] and [y] may differ. *)
Theorem findNonOverlappingPosition_frame dims existing newTable maxAttempts k :
  let placed :=
    fst (findNonOverlappingPosition random dims existing newTable
                                    maxAttempts k) in
  id placed = id newTable
  /\ width placed = width newTable
  /\ height placed = height newTable
  /\ rotation placed = rotation newTable
  /\ seats placed = seats newTable
  /\ number placed = number newTable
  /\ isSelected placed = isSelected newTable.
Proof.
  exact (findNonOverlappingPosition_keeps dims existing newTable
           maxAttempts k).
Qed.

(** Every draw is a number of [[0, 1)], as [Math.random] promises. *)
Hypothesis random_unit : forall i, 0 <= random i /\ random i < 1.

(** One turn of the loop body puts the table at least 50 from the left
    and top edges and wholly inside the canvas. *)
Lemma drawPosition_in_canvas dims existing position k :
  0 < canvasWidth dims - width position - 50 ->
  0 < canvasHeight dims - height position - 50 ->
  let p := fst (drawPosition random dims existing position k) in
  (50 <= x p /\ x p < canvasWidth dims - width position)
  /\ (50 <= y p /\ y p < canvasHeight dims - height position).
Proof.
  intros Hw Hh. unfold drawPosition. cbn [fst x y withPosition].
  destruct (random_unit k) as [H0 H1].
  destruct (random_unit (S k)) as [H2 H3].
  set (spanX := canvasWidth dims - width position - 50) in *.
  set (spanY := canvasHeight dims - height position - 50) in *.
  assert (Ex : canvasWidth dims - width position == spanX + 50)
    by (unfold spanX; ring).
  assert (Ey : canvasHeight dims - height position == spanY + 50)
    by (unfold spanY; ring).
  rewrite Ex, Ey. clear Ex Ey. clearbody spanX spanY.
  repeat split; nra.
Qed.

Lemma placementLoop_in_canvas dims existing remaining :
  forall position k,
    0 < canvasWidth dims - width position - 50 ->
    0 < canvasHeight dims - height position - 50 ->
    let p := fst (placementLoop random dims existing remaining position k) in
    (50 <= x p /\ x p < canvasWidth dims - width position)
    /\ (50 <= y p /\ y p < canvasHeight dims - height position).
Proof.
  induction remaining as [|n IH]; intros position k Hw Hh.
  - exact (drawPosition_in_canvas dims existing position k Hw Hh).
  - cbn [placementLoop].
    pose proof (drawPosition_in_canvas dims existing position k Hw Hh) as Hp.
    pose proof (drawPosition_frame dims existing position k) as Hf.
    destruct (drawPosition random dims existing position k) as [p ov].
    cbn [fst] in Hp, Hf.
    destruct n as [|n']; [exact Hp|].
    destruct ov; [|exact Hp].
    destruct Hf as (_ & Hfw & Hfh & _).
    specialize (IH p (S (S k))). rewrite Hfw, Hfh in IH.
    exact (IH Hw Hh).
Qed.

(** C1, amended.  On a canvas that leaves room
    ([canvasWidth - width - 50 > 0], [canvasHeight - height - 50 > 0]),
    with draws in [[0, 1)]: every turn of the loop draws a position in
    [[50, canvasWidth - width) x [50, canvasHeight - height)], and with a
    non-empty collection the returned table lies in that box; with an
    empty collection the candidate is returned as it is, no draw made. *)
Theorem findNonOverlappingPosition_in_canvas dims existing newTable
    maxAttempts k :
  0 < canvasWidth dims - width newTable - 50 ->
  0 < canvasHeight dims - height newTable - 50 ->
  (forall k',
     let p := fst (drawPosition random dims existing newTable k') in
     (50 <= x p /\ x p < canvasWidth dims - width newTable)
     /\ (50 <= y p /\ y p < canvasHeight dims - height newTable))
  /\ (existing <> [] ->
      let p := fst (findNonOverlappingPosition random dims existing newTable
                                               maxAttempts k) in
      (50 <= x p /\ x p < canvasWidth dims - width newTable)
      /\ (50 <= y p /\ y p < canvasHeight dims - height newTable))
  /\ (existing = [] ->
      findNonOverlappingPosition random dims existing newTable maxAttempts k
      = (newTable, k)).
Proof.
  intros Hw Hh. split; [|split].
  - intros k'. exact (drawPosition_in_canvas dims existing newTable k' Hw Hh).
  - intros Hne. unfold findNonOverlappingPosition.
    destruct existing as [|t ts]; [congruence|].
    exact (placementLoop_in_canvas dims (t :: ts) maxAttempts newTable k Hw Hh).
  - intros ->. reflexivity.
Qed.

End Placement.

(** A canvas of 800 by 600 holding one table, and a candidate of 80 by 80
    as [addTable] makes it for four seats. *)
Example findNonOverlappingPosition_in_canvas_witness :
  let dims := mkDimensions 800 600 in
  let placedBefore := mkTable "table-a" 100 100 80 80 0 4 "1" false in
  let newTable := mkTable "table-b" 0 0 80 80 0 4 "2" false in
  let p := fst (findNonOverlappingPosition (fun _ => 1 # 2) dims
                  [placedBefore] newTable defaultMaxAttempts 0) in
  (50 <= x p /\ x p < 720) /\ (50 <= y p /\ y p < 520).
Proof.
  cbv zeta.
  refine (proj1 (proj2 (findNonOverlappingPosition_in_canvas
            (fun _ => 1 # 2) _ (mkDimensions 800 600)
            [mkTable "table-a" 100 100 80 80 0 4 "1" false]
            (mkTable "table-b" 0 0 80 80 0 4 "2" false)
            defaultMaxAttempts 0%nat _ _)) _).
  - intros _. split; [discriminate | reflexivity].
  - reflexivity.
  - reflexivity.
  - discriminate.
Defined.

(** C1 as stated fails.  With one table placed and the draw 0.99, the
    returned [x] is 713.3, beyond [canvasWidth - width - 50 = 670] (and
    [y] is 515.3, beyond 470).  With no table placed, the candidate comes
    back at [(0, 0)], left of and above 50.  And without room, on a canvas
    100 wide, a table of 80 is put at [x = 35], left of 50. *)
Example findNonOverlappingPosition_leaves_stated_box :
  let dims := mkDimensions 800 600 in
  let narrow := mkDimensions 100 600 in
  let placedBefore := mkTable "table-a" 100 100 80 80 0 4 "1" false in
  let newTable := mkTable "table-b" 0 0 80 80 0 4 "2" false in
  let p := fst (findNonOverlappingPosition (fun _ => 99 # 100) dims
                  [placedBefore] newTable defaultMaxAttempts 0) in
  let q := fst (findNonOverlappingPosition (fun _ => 99 # 100) dims
                  [] newTable defaultMaxAttempts 0) in
  let r := fst (findNonOverlappingPosition (fun _ => 1 # 2) narrow
                  [placedBefore] newTable defaultMaxAttempts 0) in
  (x p == 713.3 /\ y p == 515.3 /\ x q == 0 /\ y q == 0 /\ x r == 35)
  /\ ~ (x p < canvasWidth dims - width newTable - 50)
  /\ ~ (y p < canvasHeight dims - height newTable - 50)
  /\ ~ (50 <= x q)
  /\ ~ (50 <= y q)
  /\ ~ (50 <= x r).
Proof.
  cbv zeta. split; [repeat split|].
  repeat split; vm_compute; intros H;
    first [discriminate H | apply H; reflexivity].
Qed.

(** *** Adding a table *)

Section AddTable.

Variable random : nat -> Q.
Variable toString36 : Q -> string.

Lemma number_taken_iff (n : string) (ts : list Table) :
  existsb (fun table => String.eqb (number table) n) ts = true
  <-> exists t, In t ts /\ number t = n.
Proof.
  rewrite existsb_exists. split; intros [t [Hin H]]; exists t; split; auto.
  - now apply String.eqb_eq.
  - now apply String.eqb_eq.
Qed.

Lemma tableSize_cases (n : Z) :
  In (tableSize n) [(60, 60); (80, 80); (120, 80); (160, 80); (200, 80)].
Proof.
  unfold tableSize.
  repeat match goal with |- context [(n <=? ?c)%Z] =>
           destruct (n <=? c)%Z end; simpl; tauto.
Qed.

(** C4.  [addTable] on a blank table number (empty, or white space only)
    alerts that the number is missing, and on a number some table already
    carries alerts that it is taken; both leave every state cell, the
    tables among them, as it was and make no draw.  Otherwise it ends
    normally and the tables it sets are the old ones followed by exactly
    one new table, which carries the number and the seat count asked for,
    the size of that seat count and no rotation; the number field is
    emptied and the other cells are kept. *)
Theorem addTable_spec (s : State) (k : nat) :
  let result := addTable random toString36 s k in
  (blank (tableNumber s) = true ->
     result = (Alert missingNumberAlert, s, k))
  /\ (blank (tableNumber s) = false ->
      (exists t, In t (tables s) /\ number t = tableNumber s) ->
      result = (Alert duplicateNumberAlert, s, k))
  /\ (blank (tableNumber s) = false ->
      (forall t, In t (tables s) -> number t <> tableNumber s) ->
      exists t,
        fst (fst result) = Done
        /\ tables (snd (fst result)) = tables s ++ [t]
        /\ List.length (tables (snd (fst result)))
           = S (List.length (tables s))
        /\ tableNumber (snd (fst result)) = ""%string
        /\ dimensions (snd (fst result)) = dimensions s
        /\ selectedTableId (snd (fst result)) = selectedTableId s
        /\ seatsForNewTable (snd (fst result)) = seatsForNewTable s
        /\ number t = tableNumber s
        /\ seats t = seatsForNewTable s
        /\ (width t, height t) = tableSize (seatsForNewTable s)
        /\ rotation t = 0
        /\ isSelected t = false).
Proof.
  cbv zeta. unfold addTable. rewrite trim_blank.
  split; [|split].
  - intros ->. reflexivity.
  - intros -> Hdup. apply number_taken_iff in Hdup. rewrite Hdup. reflexivity.
  - intros -> Hfresh.
    destruct (existsb _ (tables s)) eqn:E.
    + apply number_taken_iff in E. destruct E as [t [Hin Hn]].
      exfalso. exact (Hfresh t Hin Hn).
    + destruct (tableSize (seatsForNewTable s)) as [w h].
      cbn [generateId].
      set (newTable := mkTable _ 0 0 w h 0 _ _ false).
      pose proof (findNonOverlappingPosition_keeps random (dimensions s)
                    (tables s) newTable defaultMaxAttempts (S k)) as Hf.
      destruct (findNonOverlappingPosition random (dimensions s) (tables s)
                  newTable defaultMaxAttempts (S k)) as [placed k2].
      cbn [fst] in Hf. destruct Hf as (_ & Hw & Hh & Hr & Hs & Hn & Hsel).
      exists placed. rewrite Hw, Hh, Hr, Hs, Hn, Hsel.
      cbn [fst snd tables tableNumber dimensions selectedTableId
             seatsForNewTable withTableNumber withTables].
      split; [reflexivity|]. split; [reflexivity|].
      split; [rewrite length_app; cbn [List.length]; lia|].
      repeat split; reflexivity.
Qed.

End AddTable.

(** Three runs on a canvas of 800 by 600 holding table number 7: a blank
    number, the number 7 again, and the fresh number 8. *)
Example addTable_spec_witness :
  let t7 := mkTable "table-a" 100 100 80 80 0 4 "7" false in
  let st n := mkState (mkDimensions 800 600) [t7] None 4 n in
  let run n := addTable (fun _ => 1 # 2) (fun _ => "i"%string) (st n) 0 in
  run "  "%string = (Alert missingNumberAlert, st "  "%string, 0%nat)
  /\ run "7"%string = (Alert duplicateNumberAlert, st "7"%string, 0%nat)
  /\ exists t,
       tables (snd (fst (run "8"%string))) = [t7; t]
       /\ tableNumber (snd (fst (run "8"%string))) = ""%string
       /\ number t = "8"%string.
Proof.
  cbv zeta.
  set (t7 := mkTable "table-a" 100 100 80 80 0 4 "7" false).
  set (st := fun n => mkState (mkDimensions 800 600) [t7] None 4 n).
  split; [|split].
  - apply (proj1 (addTable_spec (fun _ => 1 # 2) (fun _ => "i"%string)
                    (st "  "%string) 0%nat)).
    reflexivity.
  - apply (proj1 (proj2 (addTable_spec (fun _ => 1 # 2) (fun _ => "i"%string)
                           (st "7"%string) 0%nat))).
    + reflexivity.
    + exists t7. split; [left; reflexivity | reflexivity].
  - destruct (proj2 (proj2 (addTable_spec (fun _ => 1 # 2)
                              (fun _ => "i"%string) (st "8"%string) 0%nat)))
      as (t & _ & Htables & _ & Hfield & _ & _ & _ & Hnum & _).
    + reflexivity.
    + intros u [<- | []]. discriminate.
    + exists t. split; [exact Htables|]. split; [exact Hfield | exact Hnum].
Defined.

(** *** The end of a drag *)

Lemma find_by_id (ts : list Table) (t : Table) :
  NoDup (map id ts) -> In t ts ->
  find (fun table => String.eqb (id table) (id t)) ts = Some t.
Proof.
  induction ts as [|u ts IH]; intros Hnd Hin; [destruct Hin|].
  cbn [map] in Hnd. inversion Hnd as [|? ? Hnotin Hnd']; subst.
  cbn [find]. destruct Hin as [-> | Hin].
  - now rewrite String.eqb_refl.
  - destruct (String.eqb (id u) (id t)) eqn:E.
    + apply String.eqb_eq in E. exfalso. apply Hnotin. rewrite E.
      now apply in_map.
    + now apply IH.
Qed.

Lemma same_id_same_table (ts : list Table) (t u : Table) :
  NoDup (map id ts) -> In t ts -> In u ts -> id u = id t -> u = t.
Proof.
  induction ts as [|v ts IH]; intros Hnd Ht Hu E; [destruct Ht|].
  cbn [map] in Hnd. inversion Hnd as [|? ? Hnotin Hnd']; subst.
  destruct Ht as [-> | Ht], Hu as [-> | Hu].
  - reflexivity.
  - exfalso. apply Hnotin. rewrite <- E. now apply in_map.
  - exfalso. apply Hnotin. rewrite E. now apply in_map.
  - now apply IH.
Qed.

Lemma map_other_ids (ts : list Table) (i : string) (t' : Table) :
  ~ In i (map id ts) ->
  map (fun table => if String.eqb (id table) i then t' else table) ts = ts.
Proof.
  induction ts as [|u ts IH]; intros Hnotin; [reflexivity|].
  cbn [map] in *. destruct (String.eqb (id u) i) eqn:E.
  - apply String.eqb_eq in E. exfalso. apply Hnotin. now left.
  - f_equal. apply IH. intros H. apply Hnotin. now right.
Qed.

Lemma map_at_id (before after : list Table) (t t' : Table) :
  NoDup (map id (before ++ t :: after)) ->
  map (fun table => if String.eqb (id table) (id t) then t' else table)
      (before ++ t :: after)
  = before ++ t' :: after.
Proof.
  intros Hnd. rewrite map_app in Hnd. cbn [map] in Hnd.
  pose proof (NoDup_remove_2 _ _ _ Hnd) as Hnotin.
  rewrite map_app. cbn [map]. rewrite String.eqb_refl.
  rewrite !map_other_ids; [reflexivity| |];
    intros H; apply Hnotin; apply in_or_app; tauto.
Qed.

(** C6, amended.  With the ids of the stored tables pairwise distinct
    and [t] one of them, the end of a drag of [t] to [(nx, ny)]: when the
    box of [t] at the new position overlaps, by the overlap test with
    buffer 1, some other stored table, the state is left as it was and the
    node is sent back to the stored position of [t]; otherwise the move is
    committed, the tables that are set being the old ones with [t] alone
    replaced by [t] at [(nx, ny)], all its other fields kept, and the other
    state cells being kept. *)
Theorem handleDragEnd_spec (s : State) (t : Table) (nx ny : Q) :
  NoDup (map id (tables s)) ->
  In t (tables s) ->
  let moved :=
    mkTable (id t) nx ny (width t) (height t) (rotation t) (seats t)
            (number t) (isSelected t) in
  let collides :=
    exists u, In u (tables s) /\ u <> t
              /\ tablesOverlap moved u defaultBuffer = true in
  let result := handleDragEnd s (id t) nx ny in
  (collides -> result = (Reverted (x t) (y t), s))
  /\ (~ collides ->
      exists before after,
        tables s = before ++ t :: after
        /\ fst result = Committed
        /\ tables (snd result) = before ++ moved :: after
        /\ dimensions (snd result) = dimensions s
        /\ selectedTableId (snd result) = selectedTableId s
        /\ seatsForNewTable (snd result) = seatsForNewTable s
        /\ tableNumber (snd result) = tableNumber s).
Proof.
  intros Hnd Hin moved collides result. unfold result, handleDragEnd.
  rewrite (find_by_id _ _ Hnd Hin).
  change (withPosition t nx ny) with moved.
  assert (Hex :
    existsb (fun table => negb (String.eqb (id table) (id t))
                          && tablesOverlap moved table defaultBuffer)
            (tables s) = true
    <-> collides).
  { rewrite existsb_exists. unfold collides.
    split; intros [u [Hu H]]; exists u.
    - apply andb_true_iff in H. destruct H as [Hid Hov].
      apply negb_true_iff in Hid. apply String.eqb_neq in Hid.
      repeat split; auto. intros ->. now apply Hid.
    - destruct H as [Hne Hov]. split; [exact Hu|].
      apply andb_true_iff. split; [|exact Hov].
      apply negb_true_iff. apply String.eqb_neq. intros E.
      apply Hne. exact (same_id_same_table _ _ _ Hnd Hin Hu E). }
  split.
  - intros Hc. apply Hex in Hc. rewrite Hc. reflexivity.
  - intros Hc.
    destruct (existsb _ (tables s)) eqn:E.
    + exfalso. apply Hc, Hex. reflexivity.
    + destruct (in_split _ _ Hin) as (before & after & Hsplit).
      exists before, after. split; [exact Hsplit|].
      cbn [fst snd tables dimensions selectedTableId seatsForNewTable
             tableNumber withTables].
      split; [reflexivity|]. split; [|repeat split].
      rewrite Hsplit in Hnd. rewrite Hsplit.
      exact (map_at_id before after t moved Hnd).
Qed.

(** Table B dragged onto table A is sent back to where it was; dragged to
    free ground it is moved there, A staying as it is. *)
Example handleDragEnd_spec_witness :
  let a := mkTable "table-a" 100 100 80 80 0 4 "1" false in
  let b := mkTable "table-b" 300 300 80 80 0 4 "2" false in
  let s := mkState (mkDimensions 800 600) [a; b] None 4 "" in
  handleDragEnd s "table-b" 120 120 = (Reverted 300 300, s)
  /\ exists before after,
       [a; b] = before ++ b :: after
       /\ tables (snd (handleDragEnd s "table-b" 500 400))
          = before ++ mkTable "table-b" 500 400 80 80 0 4 "2" false :: after.
Proof.
  cbv zeta.
  set (a := mkTable "table-a" 100 100 80 80 0 4 "1" false).
  set (b := mkTable "table-b" 300 300 80 80 0 4 "2" false).
  set (s := mkState (mkDimensions 800 600) [a; b] None 4 "").
  assert (Hnd : NoDup (map id (tables s))).
  { repeat constructor; simpl; intuition discriminate. }
  assert (Hin : In b (tables s)) by (right; left; reflexivity).
  split.
  - apply (proj1 (handleDragEnd_spec s b 120 120 Hnd Hin)).
    exists a. split; [left; reflexivity|]. split; [discriminate|reflexivity].
  - destruct (proj2 (handleDragEnd_spec s b 500 400 Hnd Hin))
      as (before & after & Hsplit & _ & Htables & _).
    + intros [u [[<- | [<- | []]] [Hne Hov]]].
      * discriminate Hov.
      * now apply Hne.
    + exists before, after. split; [exact Hsplit | exact Htables].
Defined.

(** C6 as stated fails when two stored tables share their id.  B, the
    second table of the id, is dropped at [(120, 120)], where its box
    overlaps A: the handler finds A under the id, compares with tables of
    another id only, of which there is none, and commits; both tables
    become A at [(120, 120)], so that B loses its number, seats and size.
    Read as a drag of A, the move is free, yet B is rewritten too. *)
Example handleDragEnd_with_shared_id :
  let a := mkTable "table-a" 100 100 80 80 0 4 "1" false in
  let b := mkTable "table-a" 300 300 120 80 0 6 "2" false in
  let s := mkState (mkDimensions 800 600) [a; b] None 4 "" in
  let result := handleDragEnd s "table-a" 120 120 in
  tablesOverlap (mkTable "table-a" 120 120 120 80 0 6 "2" false) a
                defaultBuffer = true
  /\ fst result = Committed
  /\ tables (snd result)
     = [mkTable "table-a" 120 120 80 80 0 4 "1" false;
        mkTable "table-a" 120 120 80 80 0 4 "1" false]
  /\ tables (snd result) <> tables s
  /\ tables (snd result)
     <> [a; mkTable "table-a" 120 120 120 80 0 6 "2" false]
  /\ tables (snd result)
     <> [mkTable "table-a" 120 120 80 80 0 4 "1" false; b].
Proof.
  cbv zeta. split; [reflexivity|]. split; [reflexivity|].
  split; [reflexivity|]. repeat split; intros H; discriminate H.
Qed.

(** The overlap test on tables of 80 by 80: one pixel of air still counts
    as overlap, more than one does not; a table overlaps itself. *)
Example tablesOverlap_one_pixel_apart :
  let a := mkTable "table-a" 100 100 80 80 0 4 "1" false in
  tablesOverlap a (withPosition a 181 100) defaultBuffer = true
  /\ tablesOverlap a (withPosition a (1811 # 10) 100) defaultBuffer = false
  /\ tablesOverlap a a 0 = true.
Proof. repeat split. Qed.

Example tableSize_steps :
  map tableSize [2; 4; 6; 8; 10; 12]%Z
  = [(60, 60); (80, 80); (120, 80); (160, 80); (200, 80); (200, 80)].
Proof. reflexivity. Qed.

End CanvasMyFacts.


(** ** The multi-floor editor *)

Module FloorPlanFacts.

Import FloorPlan.
Local Open Scope Q_scope.

(** *** Percentages and pixels *)

(** C8.  Over the rationals the two conversions undo each other for every
    dimension [d > 0]: a pixel value turned into a percentage and back is
    the pixel value, and a percentage turned into pixels and back is the
    percentage. *)
Theorem percent_roundtrip (p q d : Q) :
  0 < d ->
  fromPercent (toPercent p d) d == p
  /\ toPercent (fromPercent q d) d == q.
Proof.
  intros Hd.
  assert (Hnz : ~ d == 0) by (intros E; rewrite E in Hd; discriminate Hd).
  unfold fromPercent, toPercent. split; field; exact Hnz.
Qed.

(** A table 200 pixels into a stage 800 wide stands at 25 percent. *)
Example percent_roundtrip_witness :
  toPercent 200 800 == 25
  /\ fromPercent (toPercent 200 800) 800 == 200
  /\ toPercent (fromPercent 33.3 800) 800 == 33.3.
Proof.
  split; [reflexivity|].
  apply (percent_roundtrip 200 33.3 800).
  reflexivity.
Defined.

(** *** Loading the saved layout *)

Lemma loadOnMount_nothing (found : SavedLayout) (s : State) :
  nothingToLoad found -> loadOnMount found s = s.
Proof.
  intros [-> | [-> | [parsed [-> Hnone]]]]; cbn; [reflexivity..|].
  now rewrite Hnone.
Qed.

Lemma handleLoadLayout_nothing (found : SavedLayout) (s : State) :
  nothingToLoad found -> snd (handleLoadLayout found s) = s.
Proof.
  intros [-> | [-> | [parsed [-> Hnone]]]]; cbn; [reflexivity..|].
  now rewrite Hnone.
Qed.

Lemma greaterThanZero_length toNumber (n : nat) :
  greaterThanZero toNumber (Some (JNumber (inject_Z (Z.of_nat n))))
  = negb (n =? 0)%nat.
Proof.
  destruct n as [|n]; [reflexivity|].
  cbn [greaterThanZero Nat.eqb negb]. apply Qlt_bool_iff.
  unfold Qlt. cbn [Qnum Qden inject_Z]. lia.
Qed.

(** On a saved layout of the shape the page writes, the effect calls the
    setters [loadOnMount] stands for. *)
Lemma loadEffect_of_saved toNumber (sv : SavedLayout) (s : State) :
  cellsAfter (loadEffect toNumber (foundOf sv)) (cellsOf s)
  = cellsOf (loadOnMount sv s).
Proof.
  destruct sv as [| |[n fs]]; try reflexivity.
  unfold foundOf, loadOnMount, loadEffect. cbn [blobName blobFloors].
  destruct fs as [fs|].
  - assert (Hfloors :
      property "floors"
        (JObject (match n with
                  | Some n0 => [("name"%string, JString n0)]
                  | None => []
                  end ++ [("floors"%string, floorsValue fs)]))
      = Some (floorsValue fs)) by (destruct n; reflexivity).
    assert (Hname :
      property "name"
        (JObject (match n with
                  | Some n0 => [("name"%string, JString n0)]
                  | None => []
                  end ++ [("floors"%string, floorsValue fs)]))
      = option_map JString n) by (destruct n; reflexivity).
    cbn [truthyValue negb]. rewrite Hfloors, Hname.
    unfold floorsValue at 1 2 3. cbn [truthyValue negb lengthOf].
    rewrite greaterThanZero_length, length_map.
    destruct fs as [|first rest].
    + cbn [List.length Nat.eqb negb cellsAfter fold_left setCell].
      destruct n as [n|]; cbn [option_map orElse truthyValue];
        [destruct (isEmptyString n)|]; reflexivity.
    + cbn [List.length Nat.eqb negb map firstOf floorValue].
      destruct n as [n|]; cbn [option_map orElse truthyValue];
        [destruct (isEmptyString n)|]; reflexivity.
  - destruct n as [n|]; reflexivity.
Qed.

Lemma nothingToLoad_of_found (sv : SavedLayout) :
  nothingUsable (foundOf sv) -> nothingToLoad sv.
Proof.
  destruct sv as [| |[n fs]]; intros H.
  - now left.
  - right. now left.
  - right. right. exists (mkBlob n fs). split; [reflexivity|].
    destruct fs as [fs|]; [|reflexivity].
    exfalso. cbn [foundOf nothingUsable blobName blobFloors] in H.
    destruct H as [H | H]; [discriminate H|].
    destruct n; cbn in H; discriminate H.
Qed.

(** C3, amended.  When nothing usable is found under the key (no text, a
    text that does not parse, a parsed value that is falsy or has no
    truthy [floors]), the load effect calls no setter, so that no state
    cell changes; on a saved layout of the page's own shape the load on
    mount and the load button then leave the state as it is, and the page
    shows the initial floors: exactly one floor, named "Floor 1", holding
    the three sample tables T1, T2 and T3.  A parsed value whose [floors]
    is truthy but no list of floors is not covered. *)
Theorem load_falls_back_to_initial_floors
    (toNumber : JValue -> option Q) (found : Found) :
  nothingUsable found ->
  loadEffect toNumber found = []
  /\ (forall cells, cellsAfter (loadEffect toNumber found) cells = cells)
  /\ (forall sv, foundOf sv = found ->
        (forall s, loadOnMount sv s = s)
        /\ (forall s, snd (handleLoadLayout sv s) = s)
        /\ state (mount sv) = initialState)
  /\ exists floor,
       floors initialState = [floor]
       /\ Floor.id floor = "floor-1"%string
       /\ Floor.name floor = "Floor 1"%string
       /\ map name (Floor.tables floor)
          = [Some "T1"; Some "T2"; Some "T3"]%string
       /\ currentFloorId initialState = "floor-1"%string.
Proof.
  intros H.
  assert (Hnone : loadEffect toNumber found = []).
  { destruct found as [| |parsed]; try reflexivity.
    cbn [nothingUsable] in H. unfold loadEffect.
    destruct (truthyValue parsed); cbn [negb]; [|reflexivity].
    destruct H as [H | H]; [discriminate H|].
    destruct (property "floors" parsed) as [parsedFloors|]; [|reflexivity].
    now rewrite H. }
  split; [exact Hnone|]. split; [|split].
  - intros cells. now rewrite Hnone.
  - intros sv <-. apply nothingToLoad_of_found in H. split; [|split].
    + intros s. now apply loadOnMount_nothing.
    + intros s. now apply handleLoadLayout_nothing.
    + unfold mount. cbn [state]. now apply loadOnMount_nothing.
  - eexists. repeat split.
Qed.

(** A saved value with a name and no floors. *)
Example load_falls_back_to_initial_floors_witness :
  loadEffect (fun _ => None) (Value (JObject [("name"%string, JString "Bar")]))
  = []
  /\ state (mount (Parsed (mkBlob (Some "Bar"%string) None))) = initialState.
Proof.
  destruct (load_falls_back_to_initial_floors (fun _ => None)
              (Value (JObject [("name"%string, JString "Bar")])))
    as (Hnone & _ & Htyped & _).
  - right. exact I.
  - split; [exact Hnone|].
    exact (proj2 (proj2 (Htyped (Parsed (mkBlob (Some "Bar"%string) None))
                                eq_refl))).
Defined.

(** C3 as stated fails twice.  With nothing saved, the one floor the
    editor falls back to is not empty, it holds three tables.  And a saved
    value of another shape is not treated as absent: of [{"floors": 5}]
    the effect hands the 5 to [setFloors] and the empty name to
    [setLayoutName], after which the floors cell holds a number, not a
    list of floors. *)
Example fallback_floor_is_not_empty :
  let odd := Value (JObject [("floors"%string, JNumber 5)]) in
  ~ (exists floor,
       floors (state (mount NotSaved)) = [floor]
       /\ Floor.name floor = "Floor 1"%string
       /\ Floor.tables floor = [])
  /\ map (fun floor => List.length (Floor.tables floor))
         (floors (state (mount NotSaved))) = [3%nat]
  /\ (forall toNumber,
        loadEffect toNumber odd
        = [SetFloors (JNumber 5); SetLayoutName (JString "")])
  /\ (forall toNumber,
        floorsCell (cellsAfter (loadEffect toNumber odd) (cellsOf initialState))
        = JNumber 5)
  /\ (forall fs, floorsValue fs <> JNumber 5).
Proof.
  cbv zeta. split; [|split; [reflexivity|]].
  - intros [floor [Hfloors [_ Htables]]].
    cbn in Hfloors. injection Hfloors as <-. discriminate Htables.
  - split; [reflexivity|]. split; [reflexivity|].
    intros fs H. discriminate H.
Qed.

(** *** The floors *)

Lemma floors_onCurrentFloor_ids f (s : State) :
  map Floor.id (floors (onCurrentFloor f s)) = map Floor.id (floors s).
Proof.
  unfold onCurrentFloor. cbn [floors setFloors]. rewrite map_map.
  apply map_ext. intros floor.
  destruct (negb (String.eqb (Floor.id floor) (currentFloorId s)));
    reflexivity.
Qed.

Lemma soundFloors_ids (fs gs : list Floor.FloorData) :
  map Floor.id gs = map Floor.id fs -> soundFloors fs -> soundFloors gs.
Proof.
  unfold soundFloors. intros E [Hne Hnd]. rewrite E. split; [|exact Hnd].
  intros ->. destruct fs; [now apply Hne|discriminate E].
Qed.

Lemma soundFloors_onCurrentFloor f (s : State) :
  soundFloors (floors s) -> soundFloors (floors (onCurrentFloor f s)).
Proof. apply soundFloors_ids, floors_onCurrentFloor_ids. Qed.

Lemma soundFloors_add (fs : list Floor.FloorData) (floor : Floor.FloorData) :
  ~ In (Floor.id floor) (map Floor.id fs) ->
  soundFloors fs -> soundFloors (fs ++ [floor]).
Proof.
  unfold soundFloors. intros Hfresh [Hne Hnd]. split.
  - intros E. now destruct fs.
  - rewrite map_app. cbn [map].
    apply NoDup_rev in Hnd.
    assert (H : NoDup (rev (map Floor.id fs ++ [Floor.id floor]))).
    { rewrite rev_app_distr. cbn [rev app]. constructor; [|exact Hnd].
      intros Hin. apply Hfresh. now apply in_rev. }
    apply NoDup_rev in H. now rewrite rev_involutive in H.
Qed.

Lemma NoDup_ids_filter (keep : Floor.FloorData -> bool)
    (fs : list Floor.FloorData) :
  NoDup (map Floor.id fs) -> NoDup (map Floor.id (filter keep fs)).
Proof.
  induction fs as [|floor fs IH]; intros Hnd; [exact Hnd|].
  cbn [map] in Hnd. inversion Hnd as [|? ? Hnotin Hnd']; subst.
  cbn [filter]. destruct (keep floor); [|now apply IH].
  cbn [map]. constructor; [|now apply IH].
  intros Hin. apply Hnotin. apply in_map_iff in Hin.
  destruct Hin as [g [E Hg]]. apply filter_In in Hg.
  rewrite <- E. apply in_map. tauto.
Qed.

(** Taking one id out of two or more floors with distinct ids leaves a
    floor. *)
Lemma soundFloors_delete (floorId : string) (fs : list Floor.FloorData) :
  NoDup (map Floor.id fs) -> (2 <= List.length fs)%nat ->
  soundFloors
    (filter (fun floor => negb (String.eqb (Floor.id floor) floorId)) fs).
Proof.
  intros Hnd Hlen. split; [|now apply NoDup_ids_filter].
  destruct fs as [|a [|b rest]]; cbn [List.length] in Hlen; try lia.
  cbn [map] in Hnd. inversion Hnd as [|? ? Hnotin _]; subst.
  cbn [filter].
  destruct (String.eqb (Floor.id a) floorId) eqn:Ea; cbn [negb];
    [|discriminate].
  destruct (String.eqb (Floor.id b) floorId) eqn:Eb; cbn [negb];
    [|discriminate].
  apply String.eqb_eq in Ea, Eb. exfalso. apply Hnotin.
  left. congruence.
Qed.

Lemma floors_handleDeleteFloor (floorId : string) (confirmDelete : bool)
    (s : State) :
  floors (snd (handleDeleteFloor floorId confirmDelete s)) = floors s
  \/ ((2 <= List.length (floors s))%nat
      /\ floors (snd (handleDeleteFloor floorId confirmDelete s))
         = filter (fun floor => negb (String.eqb (Floor.id floor) floorId))
                  (floors s)).
Proof.
  unfold handleDeleteFloor.
  destruct (List.length (floors s) <=? 1)%nat eqn:Elen; [now left|].
  apply Nat.leb_gt in Elen.
  destruct confirmDelete; cbn [negb]; [|now left].
  right. split; [lia|].
  destruct (String.eqb floorId (currentFloorId s)); [|reflexivity].
  destruct (filter _ (floors s)); reflexivity.
Qed.

(** The handlers that do nothing without a selected table and rewrite
    the tables of the current floor otherwise. *)
Ltac on_selected_table w Hfl Hsv :=
  split; [|exact Hsv];
  unfold handleRemoveTable, handleUpdateTableSeats, handleUpdateTableName;
  destruct (selectedTable (state w)) as [sel|]; [|exact Hfl];
  destruct (isEmptyString sel); [exact Hfl|];
  cbn [floors setSelectedTable]; now apply soundFloors_onCurrentFloor.

(** What every reachable world satisfies. *)
Lemma step_keeps_sound (c : Command) (w : World) :
  freshId c w ->
  soundFloors (floors (state w)) /\ soundSaved (saved w) ->
  soundFloors (floors (state (step c w))) /\ soundSaved (saved (step c w)).
Proof.
  intros Hfresh [Hfl Hsv].
  destruct c; cbn [step state saved]; try (split; [exact Hfl | exact Hsv]);
    try (split; [now apply soundFloors_onCurrentFloor | exact Hsv]).
  - (* AddFloor *)
    split; [|exact Hsv]. unfold handleAddFloor.
    destruct (isEmptyString (trim (newFloorName (state w)))); [exact Hfl|].
    cbn [snd floors setNewFloorName setCurrentFloorId setFloors].
    apply soundFloors_add; [exact Hfresh | exact Hfl].
  - (* DeleteFloor *)
    split; [|exact Hsv].
    destruct (floors_handleDeleteFloor floorId confirmDelete (state w))
      as [-> | [Hlen ->]]; [exact Hfl|].
    apply soundFloors_delete; [exact (proj2 Hfl) | exact Hlen].
  - (* SelectTable *)
    split; [|exact Hsv]. unfold handleTableSelect.
    destruct (selectedTable (state w)) as [cur|];
      [destruct (String.eqb tableId cur)|];
      try exact Hfl;
      destruct (find _ (tables (state w))); exact Hfl.
  - (* RemoveTable *) on_selected_table w Hfl Hsv.
  - (* UpdateSeats *) on_selected_table w Hfl Hsv.
  - (* UpdateName *) on_selected_table w Hfl Hsv.
  - (* SaveLayout *)
    split; [exact Hfl|]. unfold handleSaveLayout.
    destruct (isEmptyString (trim (layoutName (state w)))); [exact Hsv|].
    exact Hfl.
  - (* LoadLayout *)
    split; [|exact Hsv]. unfold handleLoadLayout.
    destruct (saved w) as [| |parsed]; try exact Hfl.
    cbn [soundSaved] in Hsv.
    destruct (blobFloors parsed) as [fs|]; [|exact Hfl].
    destruct fs; exact Hsv.
Qed.

Lemma mount_sound (found : SavedLayout) :
  soundSaved found ->
  soundFloors (floors (state (mount found))) /\ soundSaved (saved (mount found)).
Proof.
  intros Hsv. split; [|exact Hsv].
  assert (Hinit : soundFloors initialFloors).
  { split; [discriminate|]. repeat constructor. intros []. }
  unfold mount, loadOnMount. cbn [state].
  destruct found as [| |parsed]; try exact Hinit.
  cbn [soundSaved] in Hsv.
  destruct (blobFloors parsed) as [fs|]; [|exact Hinit].
  destruct fs; exact Hsv.
Qed.

Lemma reachable_sound (found : SavedLayout) (w : World) :
  soundSaved found -> reachable found w ->
  soundFloors (floors (state w)) /\ soundSaved (saved w).
Proof.
  intros Hsv Hreach. induction Hreach as [|c w Hreach IH Hfresh].
  - now apply mount_sound.
  - now apply step_keeps_sound.
Qed.

(** C5, amended.  (1) [handleDeleteFloor] on a store of exactly one floor
    alerts that the only floor cannot be deleted and leaves the state as
    it is.  (2) Starting from a saved layout that brings in no floor list
    or a non-empty one with distinct ids, every world reached by commands
    that add floors under ids no stored floor carries has at least one
    floor.  (3) In a store of two or more floors with distinct ids,
    deleting the active floor, once confirmed, leaves the other floors
    and makes the first of them the active one. *)
Theorem floors_never_empty :
  (forall s floorId confirmDelete,
     List.length (floors s) = 1%nat ->
     handleDeleteFloor floorId confirmDelete s = (Alert onlyFloorAlert, s))
  /\ (forall found w,
        soundSaved found -> reachable found w ->
        (1 <= List.length (floors (state w)))%nat)
  /\ (forall s,
        NoDup (floorIds s) -> (2 <= List.length (floors s))%nat ->
        exists first rest,
          filter (fun floor =>
                    negb (String.eqb (Floor.id floor) (currentFloorId s)))
                 (floors s) = first :: rest
          /\ handleDeleteFloor (currentFloorId s) true s
             = (Done,
                setCurrentFloorId (setFloors s (first :: rest))
                                  (Floor.id first))).
Proof.
  split; [|split].
  - intros s floorId confirmDelete Hlen. unfold handleDeleteFloor.
    now rewrite Hlen.
  - intros found w Hsv Hreach.
    destruct (reachable_sound found w Hsv Hreach) as [[Hne _] _].
    destruct (floors (state w)); [congruence | cbn; lia].
  - intros s Hnd Hlen.
    destruct (soundFloors_delete (currentFloorId s) (floors s) Hnd Hlen)
      as [Hne _].
    unfold handleDeleteFloor.
    destruct (List.length (floors s) <=? 1)%nat eqn:E;
      [apply Nat.leb_le in E; lia|].
    cbn [negb]. rewrite String.eqb_refl.
    destruct (filter _ (floors s)) as [|first rest]; [congruence|].
    exists first, rest. split; reflexivity.
Qed.

(** A session: nothing saved, a floor "Bar" added, the first floor shown
    again and then deleted while active. *)
Example floors_never_empty_witness :
  let session :=
    [TypeFloorName "Bar"; AddFloor 1700000000000;
     SwitchFloor "floor-1"; DeleteFloor "floor-1" true] in
  let w := run session (mount NotSaved) in
  (1 <= List.length (floors (state w)))%nat
  /\ currentFloorId (state w) = "floor-1700000000000"%string
  /\ handleDeleteFloor "floor-1700000000000" true (state w)
     = (Alert onlyFloorAlert, state w).
Proof.
  cbv zeta.
  pose (w1 := step (TypeFloorName "Bar") (mount NotSaved)).
  pose (w2 := step (AddFloor 1700000000000) w1).
  pose (w3 := step (SwitchFloor "floor-1") w2).
  pose (w4 := step (DeleteFloor "floor-1" true) w3).
  assert (Hreach : reachable NotSaved w4).
  { repeat apply reach_step; try exact I; try apply reach_mount.
    vm_compute. intros [H | []]. discriminate H. }
  change (run _ (mount NotSaved)) with w4.
  split; [|split].
  - exact (proj1 (proj2 floors_never_empty) NotSaved w4 I Hreach).
  - destruct (proj2 (proj2 floors_never_empty) (state w3))
      as (first & rest & Hfilter & Hdelete).
    + repeat constructor; vm_compute; intuition discriminate.
    + apply Nat.leb_le. vm_compute. reflexivity.
    + unfold w4. cbn [step state].
      change (handleDeleteFloor "floor-1" true (state w3))
        with (handleDeleteFloor (currentFloorId (state w3)) true (state w3)).
      rewrite Hdelete. cbn [snd currentFloorId setCurrentFloorId].
      vm_compute in Hfilter. injection Hfilter as <- _.
      vm_compute. reflexivity.
  - apply (proj1 floors_never_empty). vm_compute. reflexivity.
Defined.

(** C5 as stated fails.  A saved layout whose floor list is empty is
    taken as it is, by the load on mount and by the load button, which
    brings a store of one floor down to none.  And two floors added
    within one millisecond share their id, so that deleting that id takes
    both: with nothing saved, the session below ends without a floor, the
    last command throwing once the empty list is set. *)
Example floors_can_be_emptied :
  let found := Parsed (mkBlob (Some "Bar"%string) (Some [])) in
  let session :=
    [TypeFloorName "Bar"; AddFloor 1700000000000;
     TypeFloorName "Roof"; AddFloor 1700000000000;
     DeleteFloor "floor-1" true] in
  let w := run session (mount NotSaved) in
  List.length (floors (state (mount found))) = 0%nat
  /\ List.length (floors (state (mkWorld initialState found))) = 1%nat
  /\ List.length
       (floors (state (step LoadLayout (mkWorld initialState found))))
     = 0%nat
  /\ List.length (floors (state w)) = 2%nat
  /\ handleDeleteFloor "floor-1700000000000" true (state w)
     = (TypeError, setFloors (state w) [])
  /\ List.length
       (floors (state (step (DeleteFloor "floor-1700000000000" true) w)))
     = 0%nat.
Proof.
  cbv zeta.
  repeat match goal with |- _ /\ _ => split end; vm_compute; reflexivity.
Qed.

End FloorPlanFacts.

(** ** The seats of a round table *)

Module TableViewFacts.

Import FloorPlan TableView Lra.
Local Open Scope R_scope.

Lemma roundSeats_length sz seats w h :
  List.length (roundSeats sz seats w h) = Z.to_nat seats.
Proof. unfold roundSeats. now rewrite length_map, length_seq. Qed.

(** Seat [i] stands at the angle [i * 2 * PI / seats]. *)
Lemma roundSeats_nth sz seats w h (i : nat) :
  (i < Z.to_nat seats)%nat ->
  nth_error (roundSeats sz seats w h) i
  = Some (seatDistance sz w h * cos (INR i * 2 * PI / IZR seats),
          seatDistance sz w h * sin (INR i * 2 * PI / IZR seats)).
Proof.
  intros Hi. unfold roundSeats.
  rewrite nth_error_map, nth_error_seq.
  apply Nat.ltb_lt in Hi. rewrite Hi. reflexivity.
Qed.

(** A marker is as far from the centre as the seat distance is long. *)
Lemma fromCentre_roundSeat sz seats w h (i : nat) :
  fromCentre (roundSeat sz seats w h i) = Rabs (seatDistance sz w h).
Proof.
  unfold fromCentre, roundSeat. cbn [fst snd].
  set (d := seatDistance sz w h). set (a := seatAngle seats i).
  replace (d * cos a * (d * cos a) + d * sin a * (d * sin a))
    with (Rsqr d * (Rsqr (sin a) + Rsqr (cos a)))
    by (unfold Rsqr; ring).
  rewrite sin2_cos2, Rmult_1_r. apply sqrt_Rsqr_abs.
Qed.

Lemma scaleFactor_nonneg w h : 0 <= w -> 0 <= h -> 0 <= scaleFactor w h.
Proof.
  intros Hw Hh. unfold scaleFactor.
  assert (0 <= Rmin w h) by (apply Rmin_glb; assumption).
  lra.
Qed.

Lemma seatDistance_nonneg sz w h :
  0 <= w -> 0 <= h -> 0 <= seatDistance sz w h.
Proof.
  intros Hw Hh. unfold seatDistance, scaledRadius.
  pose proof (scaleFactor_nonneg w h Hw Hh) as Hs.
  pose proof (Rmax_l (1 / 2) (scaleFactor w h)) as Hm.
  assert (0 < roundRadius sz) by (destruct sz; cbn; lra).
  nra.
Qed.

(** C9, amended.  On a stage of non-negative width and height, a medium
    round table with four seats gets exactly four markers, at the angles
    0, PI/2, PI and 3 PI/2 (0, 90, 180 and 270 degrees), that is at
    [(d, 0)], [(0, d)], [(-d, 0)] and [(0, -d)], each at the distance
    [d = 35 * max(1/2, scale) + 10 * scale] from the centre, where [scale]
    is [scaleFactor]; [d] is [35 * scale + 10 * scale] when
    [scale >= 1/2].  For every size and seat count, seat [i] stands at the
    angle [i * 2 * PI / seats]. *)
Theorem medium_round_table_seats (w h : R) :
  0 <= w -> 0 <= h ->
  let scale := scaleFactor w h in
  let d := 35 * Rmax (1 / 2) scale + 10 * scale in
  roundSeats medium 4 w h
  = [ (d * cos 0, d * sin 0);
      (d * cos (PI / 2), d * sin (PI / 2));
      (d * cos PI, d * sin PI);
      (d * cos (3 * (PI / 2)), d * sin (3 * (PI / 2))) ]
  /\ roundSeats medium 4 w h = [ (d, 0); (0, d); (- d, 0); (0, - d) ]
  /\ Forall (fun p => fromCentre p = d) (roundSeats medium 4 w h)
  /\ (1 / 2 <= scale -> d = 35 * scale + 10 * scale)
  /\ (forall sz seats i,
        (i < Z.to_nat seats)%nat ->
        nth_error (roundSeats sz seats w h) i
        = Some (seatDistance sz w h * cos (INR i * 2 * PI / IZR seats),
                seatDistance sz w h * sin (INR i * 2 * PI / IZR seats))).
Proof.
  intros Hw Hh scale d.
  assert (Hd : seatDistance medium w h = d) by reflexivity.
  assert (Hangles :
    roundSeats medium 4 w h
    = [ (d * cos 0, d * sin 0);
        (d * cos (PI / 2), d * sin (PI / 2));
        (d * cos PI, d * sin PI);
        (d * cos (3 * (PI / 2)), d * sin (3 * (PI / 2))) ]).
  { unfold roundSeats. change (Z.to_nat 4) with 4%nat. cbn [seq map].
    unfold roundSeat, seatAngle. rewrite Hd.
    replace (INR 0 * 2 * PI / 4) with 0 by (cbn [INR]; lra).
    replace (INR 1 * 2 * PI / 4) with (PI / 2) by (cbn [INR]; lra).
    replace (INR 2 * 2 * PI / 4) with PI by (cbn [INR]; lra).
    replace (INR 3 * 2 * PI / 4) with (3 * (PI / 2)) by (cbn [INR]; lra).
    reflexivity. }
  split; [exact Hangles|]. split; [|split; [|split]].
  - rewrite Hangles.
    rewrite cos_0, sin_0, cos_PI2, sin_PI2, cos_PI, sin_PI, cos_3PI2,
      sin_3PI2.
    repeat f_equal; ring.
  - unfold roundSeats. apply Forall_map, Forall_forall. intros i _.
    rewrite fromCentre_roundSeat, Hd. apply Rabs_right.
    rewrite <- Hd. apply Rle_ge. now apply seatDistance_nonneg.
  - intros Hscale. unfold d. rewrite Rmax_right by exact Hscale. reflexivity.
  - intros sz seats i. apply roundSeats_nth.
Qed.

(** A stage of 800 by 600, where the scale is 3/4 and the distance
    33.75. *)
Example medium_round_table_seats_witness :
  roundSeats medium 4 800 600
  = [ (135 / 4, 0); (0, 135 / 4); (- (135 / 4), 0); (0, - (135 / 4)) ].
Proof.
  assert (Hw : 0 <= 800) by lra. assert (Hh : 0 <= 600) by lra.
  destruct (medium_round_table_seats 800 600 Hw Hh) as (_ & Hseats & _).
  cbv zeta in Hseats. rewrite Hseats.
  assert (Hd : 35 * Rmax (1 / 2) (scaleFactor 800 600)
               + 10 * scaleFactor 800 600 = 135 / 4).
  { unfold scaleFactor. rewrite Rmin_right by lra.
    rewrite Rmax_right by lra. lra. }
  rewrite Hd. reflexivity.
Defined.

(** C9 as stated fails on a small stage: at 320 by 240 the scale is 0.3,
    the radius is held at half its size, and the first seat of the medium
    round table stands 20.5 from the centre, not [35 * 0.3 + 10 * 0.3]. *)
Example small_stage_seat_distance :
  let scale := scaleFactor 320 240 in
  exists p,
    nth_error (roundSeats medium 4 320 240) 0 = Some p
    /\ fromCentre p = 41 / 2
    /\ fromCentre p <> 35 * scale + 10 * scale.
Proof.
  cbv zeta. exists (roundSeat medium 4 320 240 0).
  assert (Hs : scaleFactor 320 240 = 3 / 10).
  { unfold scaleFactor. rewrite Rmin_right by lra. lra. }
  assert (Hd : seatDistance medium 320 240 = 41 / 2).
  { unfold seatDistance, scaledRadius. rewrite Hs.
    rewrite Rmax_left by lra. cbn [roundRadius]. lra. }
  split; [reflexivity|].
  rewrite fromCentre_roundSeat, Hd, Hs.
  rewrite Rabs_right by lra. split; lra.
Qed.

End TableViewFacts.

(** * Further properties *)

(** ** The fixed-coordinate editor *)

Module CanvasMyMore.

Import CanvasMy CanvasMyFacts.
Local Open Scope Q_scope.

(** *** How long the placement search runs *)

Section Attempts.

Variable random : nat -> Q.
Variable dims : Dimensions.
Variable existing : list Table.
Variable newTable : Table.

Lemma drawPosition_of_candidate (position : Table) (k : nat) :
  sameButPosition newTable position ->
  drawPosition random dims existing position k
  = drawPosition random dims existing newTable k.
Proof.
  unfold sameButPosition. intros (Hid & Hw & Hh & Hr & Hs & Hn & Hsel).
  unfold drawPosition, withPosition.
  now rewrite Hid, Hw, Hh, Hr, Hs, Hn, Hsel.
Qed.

(** In [placementLoop] the turn of the body that starts at draw
    [k + 2 * j] draws for the candidate, whatever was drawn before. *)
Lemma placementLoop_first_free (remaining : nat) :
  forall position k,
    sameButPosition newTable position ->
    exists m : nat,
      (m < Nat.max 1 remaining)%nat
      /\ placementLoop random dims existing remaining position k
         = (fst (drawPosition random dims existing newTable (k + 2 * m)),
            (k + 2 * S m)%nat)
      /\ (forall j, (j < m)%nat ->
            snd (drawPosition random dims existing newTable (k + 2 * j))
            = true)
      /\ ((S m < Nat.max 1 remaining)%nat ->
          snd (drawPosition random dims existing newTable (k + 2 * m))
          = false).
Proof.
  induction remaining as [|r IH]; intros position k Hsame.
  - exists 0%nat. cbn [placementLoop].
    replace (k + 2 * 0)%nat with k by lia.
    rewrite (drawPosition_of_candidate position k Hsame).
    destruct (drawPosition random dims existing newTable k) as [p ov].
    cbn [fst]. repeat split; try lia.
    f_equal. lia.
  - cbn [placementLoop].
    rewrite (drawPosition_of_candidate position k Hsame).
    pose proof (drawPosition_frame random dims existing newTable k) as Hp.
    destruct (drawPosition random dims existing newTable k) as [p ov] eqn:E.
    cbn [fst] in Hp.
    assert (E0 : drawPosition random dims existing newTable (k + 2 * 0)
                 = (p, ov)).
    { replace (k + 2 * 0)%nat with k by lia. exact E. }
    destruct r as [|r'].
    + exists 0%nat. rewrite E0. cbn [fst].
      repeat split; try lia. f_equal. lia.
    + destruct ov.
      * destruct (IH p (S (S k)) Hp) as (m & Hm & Hrun & Hbefore & Hfree).
        assert (Eshift : forall j,
                  drawPosition random dims existing newTable
                               (S (S k) + 2 * j)
                  = drawPosition random dims existing newTable
                                 (k + 2 * S j)).
        { intros j. f_equal. lia. }
        exists (S m). rewrite Hrun, Eshift.
        split; [lia|]. split; [f_equal; lia|]. split.
        -- intros [|j] Hj; [now rewrite E0|].
           rewrite <- Eshift. apply Hbefore. lia.
        -- intros Hlt. rewrite <- Eshift. apply Hfree. lia.
      * exists 0%nat. rewrite E0. cbn [fst snd].
        repeat split; try lia. f_equal. lia.
Qed.

(** X1.  With tables on the canvas, [findNonOverlappingPosition] returns
    the position of the first attempt that overlaps no existing table, or
    that of the last of its [max 1 maxAttempts] attempts when none is
    free: for some [m] below that bound the result is the position drawn
    in attempt [m], two draws were made per attempt up to it, every
    attempt before [m] overlapped, and attempt [m] is free unless it is
    the last one allowed. *)
Theorem findNonOverlappingPosition_attempts (maxAttempts k : nat) :
  existing <> [] ->
  exists m : nat,
    (m < Nat.max 1 maxAttempts)%nat
    /\ findNonOverlappingPosition random dims existing newTable maxAttempts k
       = (fst (drawPosition random dims existing newTable (k + 2 * m)),
          (k + 2 * S m)%nat)
    /\ (forall j, (j < m)%nat ->
          snd (drawPosition random dims existing newTable (k + 2 * j))
          = true)
    /\ ((S m < Nat.max 1 maxAttempts)%nat ->
        snd (drawPosition random dims existing newTable (k + 2 * m))
        = false).
Proof.
  intros Hne. unfold findNonOverlappingPosition.
  destruct existing as [|t ts] eqn:E; [congruence|]. rewrite <- E.
  apply placementLoop_first_free. apply sameButPosition_refl.
Qed.

End Attempts.

(** Draws that land on the stored table twice and miss it the third
    time: the search takes the third attempt and stops, six draws made. *)
Example findNonOverlappingPosition_attempts_witness :
  let random := fun k : nat => if (k <? 4)%nat then 0 else 1 # 2 in
  let dims := mkDimensions 800 600 in
  let placedBefore := mkTable "table-a" 50 50 80 80 0 4 "1" false in
  let newTable := mkTable "table-b" 0 0 80 80 0 4 "2" false in
  findNonOverlappingPosition random dims [placedBefore] newTable 50 0
  = (mkTable "table-b" (770 # 2) (570 # 2) 80 80 0 4 "2" false, 6%nat)
  /\ exists m : nat,
       (m < 50)%nat
       /\ snd (findNonOverlappingPosition random dims [placedBefore]
                 newTable 50 0) = (0 + 2 * S m)%nat
       /\ (forall j, (j < m)%nat ->
             snd (drawPosition random dims [placedBefore] newTable
                               (0 + 2 * j)) = true).
Proof.
  cbv zeta. split; [vm_compute; reflexivity|].
  destruct (findNonOverlappingPosition_attempts
              (fun k : nat => if (k <? 4)%nat then 0 else 1 # 2)
              (mkDimensions 800 600)
              [mkTable "table-a" 50 50 80 80 0 4 "1" false]
              (mkTable "table-b" 0 0 80 80 0 4 "2" false) 50 0)
    as (m & Hm & Hrun & Hbefore & _).
  - discriminate.
  - exists m. split; [exact Hm|]. split; [|exact Hbefore].
    rewrite Hrun. reflexivity.
Defined.

(** *** The first table *)

(** X2.  On a canvas without tables [addTable], given a number that is
    not blank, puts the new table at [(0, 0)] whatever the size of the
    canvas is, and draws once only, for the id. *)
Theorem addTable_first_table random toString36 (s : State) (k : nat) :
  blank (tableNumber s) = false ->
  tables s = [] ->
  addTable random toString36 s k
  = (Done,
     withTableNumber
       (withTables s
          [mkTable (String.append "table-" (toString36 (random k))) 0 0
                   (fst (tableSize (seatsForNewTable s)))
                   (snd (tableSize (seatsForNewTable s))) 0
                   (seatsForNewTable s) (tableNumber s) false])
       "",
     S k).
Proof.
  intros Hb He. unfold addTable. rewrite trim_blank, Hb, He.
  cbn [existsb]. destruct (tableSize (seatsForNewTable s)) as [w h].
  reflexivity.
Qed.

Example addTable_first_table_witness :
  exists t,
    addTable (fun _ => 1 # 2) (fun _ => "i"%string)
             (mkState (mkDimensions 800 600) [] None 4 "7") 0
    = (Done, mkState (mkDimensions 800 600) [t] None 4 "", 1%nat)
    /\ x t = 0 /\ y t = 0 /\ width t = 80 /\ height t = 80.
Proof.
  eexists. split.
  - apply (addTable_first_table (fun _ => 1 # 2) (fun _ => "i"%string)
             (mkState (mkDimensions 800 600) [] None 4 "7") 0%nat);
      reflexivity.
  - repeat split.
Defined.

(** *** The size of a table *)

(** X9.  A table never gets smaller when it gets more seats, and is never
    higher than wide: [tableSize] grows with the seat count in width and
    in height. *)
Theorem tableSize_monotone (a b : Z) :
  (a <= b)%Z ->
  fst (tableSize a) <= fst (tableSize b)
  /\ snd (tableSize a) <= snd (tableSize b)
  /\ snd (tableSize a) <= fst (tableSize a).
Proof.
  intros Hab. unfold tableSize.
  repeat match goal with
         | |- context [(?n <=? ?c)%Z] => destruct (Z.leb_spec n c)
         end; cbn [fst snd]; try lia;
    repeat split; unfold Qle; cbn; lia.
Qed.

Example tableSize_monotone_witness :
  fst (tableSize 4) <= fst (tableSize 10)
  /\ snd (tableSize 4) <= snd (tableSize 10)
  /\ snd (tableSize 4) <= fst (tableSize 4).
Proof. apply (tableSize_monotone 4 10). lia. Defined.

(** *** Dragging, rotating and deleting *)

Lemma tablesOverlap_false_sym (a b : Table) (buffer : Q) :
  tablesOverlap a b buffer = false -> tablesOverlap b a buffer = false.
Proof.
  intros H. apply tablesOverlap_false_iff in H.
  apply tablesOverlap_false_iff. tauto.
Qed.

(** What [handleDragEnd] leaves in the collection: the old tables, or the
    old tables with those of the dragged id replaced by one stored table of
    that id at the new position, which overlaps no table of another id. *)
Lemma handleDragEnd_tables (s : State) (nodeId : string) (nx ny : Q) :
  tables (snd (handleDragEnd s nodeId nx ny)) = tables s
  \/ exists t,
       In t (tables s) /\ id t = nodeId
       /\ (forall u, In u (tables s) -> id u <> nodeId ->
                     tablesOverlap (withPosition t nx ny) u defaultBuffer
                     = false)
       /\ tables (snd (handleDragEnd s nodeId nx ny))
          = map (fun table =>
                   if String.eqb (id table) nodeId
                   then withPosition t nx ny else table)
                (tables s).
Proof.
  unfold handleDragEnd.
  destruct (find _ (tables s)) as [t|] eqn:Efind; [|now left].
  apply find_some in Efind. destruct Efind as [Hin Hid].
  apply String.eqb_eq in Hid.
  destruct (existsb _ (tables s)) eqn:Eov; [now left|].
  right. exists t. repeat split; auto.
  intros u Hu Hne.
  destruct (tablesOverlap (withPosition t nx ny) u defaultBuffer) eqn:E;
    [|reflexivity].
  exfalso. apply not_true_iff_false in Eov. apply Eov.
  apply existsb_exists. exists u. split; [exact Hu|].
  rewrite E, andb_true_r. apply negb_true_iff. now apply String.eqb_neq.
Qed.

(** X4.  A drag never brings an overlap in: when no two stored tables of
    different ids overlap (by the test with buffer 1), the same holds of
    the tables [handleDragEnd] leaves, wherever the table was dropped. *)
Theorem handleDragEnd_keeps_overlapFree (s : State) (nodeId : string)
    (nx ny : Q) :
  overlapFree (tables s) ->
  overlapFree (tables (snd (handleDragEnd s nodeId nx ny))).
Proof.
  intros Hfree.
  destruct (handleDragEnd_tables s nodeId nx ny)
    as [-> | (t & Hin & Hid & Hclear & ->)]; [exact Hfree|].
  intros a b Ha Hb Hne.
  apply in_map_iff in Ha. destruct Ha as (a0 & <- & Ha0).
  apply in_map_iff in Hb. destruct Hb as (b0 & <- & Hb0).
  destruct (String.eqb (id a0) nodeId) eqn:Ea;
    destruct (String.eqb (id b0) nodeId) eqn:Eb.
  - now contradiction Hne.
  - apply Hclear; [exact Hb0|]. now apply String.eqb_neq.
  - apply tablesOverlap_false_sym. apply Hclear; [exact Ha0|].
    now apply String.eqb_neq.
  - now apply Hfree.
Qed.

(** Table B dropped next to table C, clear of it by two pixels. *)
Example handleDragEnd_keeps_overlapFree_witness :
  let a := mkTable "table-a" 100 100 80 80 0 4 "1" false in
  let b := mkTable "table-b" 300 300 80 80 0 4 "2" false in
  let c := mkTable "table-c" 500 100 80 80 0 4 "3" false in
  let s := mkState (mkDimensions 800 600) [a; b; c] None 4 "" in
  overlapFree (tables (snd (handleDragEnd s "table-b" 418 100))).
Proof.
  cbv zeta.
  apply (handleDragEnd_keeps_overlapFree
           (mkState (mkDimensions 800 600)
              [mkTable "table-a" 100 100 80 80 0 4 "1" false;
               mkTable "table-b" 300 300 80 80 0 4 "2" false;
               mkTable "table-c" 500 100 80 80 0 4 "3" false] None 4 "")
           "table-b" 418 100).
  intros t u Ht Hu Hne. cbn [tables] in Ht, Hu.
  destruct Ht as [<- | [<- | [<- | []]]];
    destruct Hu as [<- | [<- | [<- | []]]];
    first [reflexivity | now contradiction Hne].
Defined.

Lemma same_id_pointwise (ts : list Table) (t : Table) (f : Table -> Table) :
  NoDup (map id ts) -> In t ts ->
  map (fun table => if String.eqb (id table) (id t) then f t else table) ts
  = map (fun table => if String.eqb (id table) (id t) then f table else table)
        ts.
Proof.
  intros Hnd Hin. apply map_ext_in. intros u Hu.
  destruct (String.eqb (id u) (id t)) eqn:E; [|reflexivity].
  apply String.eqb_eq in E.
  now rewrite (same_id_same_table ts t u Hnd Hin Hu E).
Qed.

Lemma Forall2_map_pointwise (R : Table -> Table -> Prop) (f : Table -> Table)
    (ts : list Table) :
  (forall t, R t (f t)) -> Forall2 R ts (map f ts).
Proof.
  intros H. induction ts as [|t ts IH]; cbn [map]; constructor; auto.
Qed.

Lemma sameTable_refl (t : Table) : sameTable t t.
Proof. unfold sameTable. tauto. Qed.

Lemma handleTransformEnd_sameTable (s : State) (nodeId : string)
    (r nx ny : Q) :
  Forall2 sameTable (tables s) (tables (handleTransformEnd s nodeId r nx ny)).
Proof.
  unfold handleTransformEnd. cbn [tables withTables].
  apply Forall2_map_pointwise. intros t.
  destruct (String.eqb (id t) nodeId); unfold sameTable; cbn; tauto.
Qed.

Lemma handleDragEnd_sameTable (s : State) (nodeId : string) (nx ny : Q) :
  NoDup (map id (tables s)) ->
  Forall2 sameTable (tables s) (tables (snd (handleDragEnd s nodeId nx ny))).
Proof.
  intros Hnd.
  destruct (handleDragEnd_tables s nodeId nx ny)
    as [-> | (t & Hin & Hid & _ & ->)].
  - clear. induction (tables s); constructor; auto using sameTable_refl.
  - subst nodeId.
    rewrite (same_id_pointwise (tables s) t
               (fun u => withPosition u nx ny) Hnd Hin).
    apply Forall2_map_pointwise. intros u.
    destruct (String.eqb (id u) (id t)); unfold sameTable; cbn; tauto.
Qed.

(** X6.  Rotating a table and, with distinct ids, dragging one change no
    id, number, seat count, width or height and neither add nor drop a
    table: the new collection matches the old one table by table. *)
Theorem drag_and_rotation_keep_tables (s : State) (nodeId : string)
    (r nx ny : Q) :
  Forall2 sameTable (tables s) (tables (handleTransformEnd s nodeId r nx ny))
  /\ (NoDup (map id (tables s)) ->
      Forall2 sameTable (tables s)
              (tables (snd (handleDragEnd s nodeId nx ny)))).
Proof.
  split.
  - apply handleTransformEnd_sameTable.
  - apply handleDragEnd_sameTable.
Qed.

Example drag_and_rotation_keep_tables_witness :
  let a := mkTable "table-a" 100 100 80 80 0 4 "1" false in
  let b := mkTable "table-b" 300 300 80 80 0 4 "2" false in
  let s := mkState (mkDimensions 800 600) [a; b] None 4 "" in
  Forall2 sameTable [a; b] (tables (snd (handleDragEnd s "table-b" 500 400))).
Proof.
  cbv zeta.
  apply (proj2 (drag_and_rotation_keep_tables
                  (mkState (mkDimensions 800 600)
                     [mkTable "table-a" 100 100 80 80 0 4 "1" false;
                      mkTable "table-b" 300 300 80 80 0 4 "2" false]
                     None 4 "")
                  "table-b" 0 500 400)).
  repeat constructor; cbn; intuition discriminate.
Defined.

Lemma filter_other_ids_length (ts : list Table) (sel : string) :
  NoDup (map id ts) -> In sel (map id ts) ->
  S (List.length
       (filter (fun table => negb (String.eqb (id table) sel)) ts))
  = List.length ts.
Proof.
  induction ts as [|t ts IH]; intros Hnd Hin; [destruct Hin|].
  cbn [map] in Hnd, Hin. inversion Hnd as [|? ? Hnotin Hnd']; subst.
  cbn [filter List.length].
  destruct (String.eqb (id t) sel) eqn:E; cbn [negb].
  - apply String.eqb_eq in E. subst sel. f_equal.
    f_equal. apply forallb_filter_id. apply forallb_forall.
    intros u Hu. apply negb_true_iff. apply String.eqb_neq.
    intros Eu. apply Hnotin. rewrite <- Eu. now apply in_map.
  - cbn [List.length]. f_equal. apply IH; [exact Hnd'|].
    destruct Hin as [Hin | Hin]; [|exact Hin].
    apply String.eqb_neq in E. now contradiction E.
Qed.

(** X5.  With a table selected, [deleteSelectedTable] clears the
    selection and keeps exactly the tables of another id, in their order;
    with distinct ids and the selected table stored, exactly one table
    goes.  Without a selection nothing changes. *)
Theorem deleteSelectedTable_spec (s : State) :
  (selectedTableId s = None -> deleteSelectedTable s = s)
  /\ (forall sel,
        selectedTableId s = Some sel -> isEmptyString sel = false ->
        selectedTableId (deleteSelectedTable s) = None
        /\ (forall u, In u (tables (deleteSelectedTable s))
                      <-> In u (tables s) /\ id u <> sel)
        /\ (NoDup (map id (tables s)) -> In sel (map id (tables s)) ->
            S (List.length (tables (deleteSelectedTable s)))
            = List.length (tables s))).
Proof.
  unfold deleteSelectedTable. split.
  - intros ->. reflexivity.
  - intros sel -> ->. cbn [selectedTableId tables withSelectedTableId
                             withTables].
    split; [reflexivity|]. split.
    + intros u. rewrite filter_In, negb_true_iff, String.eqb_neq. tauto.
    + apply filter_other_ids_length.
Qed.

Example deleteSelectedTable_spec_witness :
  let a := mkTable "table-a" 100 100 80 80 0 4 "1" false in
  let b := mkTable "table-b" 300 300 80 80 0 4 "2" false in
  let s := mkState (mkDimensions 800 600) [a; b] (Some "table-a"%string) 4 ""
  in
  selectedTableId (deleteSelectedTable s) = None
  /\ S (List.length (tables (deleteSelectedTable s))) = 2%nat.
Proof.
  cbv zeta.
  destruct (proj2 (deleteSelectedTable_spec
                     (mkState (mkDimensions 800 600)
                        [mkTable "table-a" 100 100 80 80 0 4 "1" false;
                         mkTable "table-b" 300 300 80 80 0 4 "2" false]
                        (Some "table-a"%string) 4 ""))
                  "table-a"%string eq_refl eq_refl) as (Hsel & _ & Hlen).
  split; [exact Hsel|]. apply Hlen.
  - repeat constructor; cbn; intuition discriminate.
  - left. reflexivity.
Defined.

(** *** Ids and numbers stay unique *)

Lemma NoDup_map_snoc {A B : Type} (f : A -> B) (l : list A) (a : A) :
  NoDup (map f l) -> ~ In (f a) (map f l) -> NoDup (map f (l ++ [a])).
Proof.
  induction l as [|b l IH]; cbn [map app]; intros Hnd Hnotin.
  - constructor; [intros []|constructor].
  - inversion Hnd as [|? ? Hb Hnd']; subst. constructor.
    + rewrite map_app, in_app_iff. cbn [map In]. intros [H | [H | []]].
      * now apply Hb.
      * apply Hnotin. left. now symmetry.
    + apply IH; [exact Hnd'|]. intros H. apply Hnotin. now right.
Qed.

Lemma NoDup_map_filter {A B : Type} (f : A -> B) (keep : A -> bool)
    (l : list A) :
  NoDup (map f l) -> NoDup (map f (filter keep l)).
Proof.
  induction l as [|a l IH]; intros Hnd; [exact Hnd|].
  cbn [map] in Hnd. inversion Hnd as [|? ? Hnotin Hnd']; subst.
  cbn [filter]. destruct (keep a); [|now apply IH].
  cbn [map]. constructor; [|now apply IH].
  intros Hin. apply Hnotin. apply in_map_iff in Hin.
  destruct Hin as [b [E Hb]]. apply filter_In in Hb.
  rewrite <- E. apply in_map. tauto.
Qed.

Lemma Forall2_sameTable_maps (ts us : list Table) :
  Forall2 sameTable ts us ->
  map id us = map id ts /\ map number us = map number ts.
Proof.
  induction 1 as [|t u ts us (Hid & Hnum & _) _ [IHid IHnum]];
    [split; reflexivity|].
  cbn [map]. split; congruence.
Qed.

Section Numbers.

Variable random : nat -> Q.
Variable toString36 : Q -> string.

Lemma addTable_uniqueTables (s : State) (k : nat) :
  ~ In (fst (generateId random toString36 k)) (map id (tables s)) ->
  uniqueTables s ->
  uniqueTables (snd (fst (addTable random toString36 s k))).
Proof.
  intros Hfresh [Hid Hnum]. unfold addTable.
  destruct (isEmptyString (trim (tableNumber s))); [split; assumption|].
  destruct (existsb _ (tables s)) eqn:Etaken; [split; assumption|].
  destruct (tableSize (seatsForNewTable s)) as [w h].
  cbn [generateId] in *.
  set (newTable := mkTable _ 0 0 w h 0 _ _ false).
  pose proof (findNonOverlappingPosition_keeps random (dimensions s)
                (tables s) newTable defaultMaxAttempts (S k)) as Hkeep.
  destruct (findNonOverlappingPosition random (dimensions s) (tables s)
              newTable defaultMaxAttempts (S k)) as [placed k2].
  cbn [fst] in Hkeep. destruct Hkeep as (Hpid & _ & _ & _ & _ & Hpnum & _).
  cbn [fst snd tables withTableNumber withTables]. split.
  - apply NoDup_map_snoc; [exact Hid|]. rewrite Hpid. exact Hfresh.
  - apply NoDup_map_snoc; [exact Hnum|]. rewrite Hpnum. cbn [number newTable].
    intros Hin. apply not_true_iff_false in Etaken. apply Etaken.
    apply number_taken_iff. apply in_map_iff in Hin.
    destruct Hin as (t & Ht & Hin). now exists t.
Qed.

Lemma step_uniqueTables (c : Command) (w : World) :
  freshId random toString36 c w ->
  uniqueTables (state w) -> uniqueTables (state (step random toString36 c w)).
Proof.
  intros Hfresh Hu. pose proof Hu as [Hid Hnum].
  destruct c; cbn [step]; try exact Hu.
  - (* PressAdd *)
    pose proof (addTable_uniqueTables (state w) (drawn w) Hfresh Hu) as H.
    destruct (addTable random toString36 (state w) (drawn w)) as [[o s'] k'].
    exact H.
  - (* ClickStage *)
    cbn [state]. unfold handleStageClick. destruct onStage; exact Hu.
  - (* EndTransform *)
    cbn [state].
    destruct (Forall2_sameTable_maps _ _
                (handleTransformEnd_sameTable (state w) nodeId r nx ny))
      as [Ei En].
    unfold uniqueTables. now rewrite Ei, En.
  - (* EndDrag *)
    cbn [state].
    destruct (Forall2_sameTable_maps _ _
                (handleDragEnd_sameTable (state w) nodeId nx ny Hid))
      as [Ei En].
    unfold uniqueTables. now rewrite Ei, En.
  - (* PressDelete *)
    cbn [state]. unfold deleteSelectedTable.
    destruct (selectedTableId (state w)) as [sel|]; [|exact Hu].
    destruct (isEmptyString sel); [exact Hu|].
    split; cbn [tables withSelectedTableId withTables];
      now apply NoDup_map_filter.
  - (* ResizeWindow *)
    cbn [state]. unfold updateDimensions.
    destruct (negb _ && negb _); exact Hu.
Qed.

(** X3.  Starting from tables whose ids and whose numbers are pairwise
    distinct (an empty canvas, say), every state reached by the commands of
    the page, tables being added under fresh ids, has pairwise distinct
    ids and pairwise distinct numbers. *)
Theorem numbers_stay_unique (start w : World) :
  NoDup (map id (tables (state start))) ->
  NoDup (map number (tables (state start))) ->
  reachable random toString36 start w ->
  NoDup (map id (tables (state w)))
  /\ NoDup (map number (tables (state w))).
Proof.
  intros Hid Hnum Hreach.
  induction Hreach as [|c w Hreach IH Hfresh]; [split; assumption|].
  now apply step_uniqueTables.
Qed.

End Numbers.

(** Two tables added to an empty canvas, then the first one dragged. *)
Example numbers_stay_unique_witness :
  let random := fun k : nat => if (k =? 0)%nat then 0 else 1 # 2 in
  let toString36 :=
    fun q : Q => if Qeq_bool q 0 then "a"%string else "b"%string in
  let start := mkWorld (mkState (mkDimensions 800 600) [] None 4 "") 0 in
  let w :=
    fold_left (fun w c => step random toString36 c w)
      [TypeNumber "7"; PressAdd; TypeNumber "8"; PressAdd;
       EndDrag "table-a" 600 50]
      start in
  map id (tables (state w)) = ["table-a"; "table-b"]%string
  /\ NoDup (map number (tables (state w))).
Proof.
  cbv zeta.
  set (random := fun k : nat => if (k =? 0)%nat then 0 else 1 # 2).
  set (toString36 := fun q : Q => if Qeq_bool q 0 then "a"%string
                                  else "b"%string).
  set (start := mkWorld (mkState (mkDimensions 800 600) [] None 4 "") 0).
  split; [vm_compute; reflexivity|].
  refine (proj2 (numbers_stay_unique random toString36 start _ _ _ _)).
  - constructor.
  - constructor.
  - cbn [fold_left].
    repeat apply reach_next; try exact I; try apply reach_start;
      vm_compute; intuition discriminate.
Defined.

(** *** Zooming with the wheel *)

Lemma scaleBy_nonzero : ~ scaleBy == 0.
Proof. intros H. discriminate H. Qed.

Lemma handleWheel_scale (deltaY : Q) (ctrlKey : bool) (px py : Q)
    (stage : Stage) :
  scaleX (handleWheel deltaY ctrlKey px py stage) == scaleX stage * scaleBy
  \/ scaleX (handleWheel deltaY ctrlKey px py stage)
     == scaleX stage / scaleBy.
Proof.
  unfold handleWheel. cbn [scaleX].
  destruct (Qgt_bool _ 0); [left | right]; reflexivity.
Qed.

Lemma handleWheel_shape (deltaY : Q) (ctrlKey : bool) (px py : Q)
    (stage : Stage) :
  let z := scaleX (handleWheel deltaY ctrlKey px py stage) in
  handleWheel deltaY ctrlKey px py stage
  = mkStage z z
      (px - (px - stageX stage) / scaleX stage * z)
      (py - (py - stageY stage) / scaleX stage * z).
Proof. reflexivity. Qed.

Lemma handleWheel_scale_nonzero (deltaY : Q) (ctrlKey : bool) (px py : Q)
    (stage : Stage) :
  ~ scaleX stage == 0 ->
  ~ scaleX (handleWheel deltaY ctrlKey px py stage) == 0.
Proof.
  intros Hs H.
  destruct (handleWheel_scale deltaY ctrlKey px py stage) as [E | E];
    rewrite E in H.
  - apply Qmult_integral in H. destruct H as [H | H]; [now apply Hs|].
    now apply scaleBy_nonzero.
  - unfold Qdiv in H. apply Qmult_integral in H.
    destruct H as [H | H]; [now apply Hs|].
    apply scaleBy_nonzero. discriminate H.
Qed.

(** X7.  On a stage whose scale is not zero, a turn of the wheel changes
    the scale by the factor 1.1, up or down, sets both scales to the same
    value and keeps under the pointer the point of the canvas that was
    there. *)
Theorem handleWheel_keeps_pointed_point (deltaY : Q) (ctrlKey : bool)
    (px py : Q) (stage : Stage) :
  ~ scaleX stage == 0 ->
  let zoomed := handleWheel deltaY ctrlKey px py stage in
  fst (canvasPoint zoomed px py) == fst (canvasPoint stage px py)
  /\ snd (canvasPoint zoomed px py) == snd (canvasPoint stage px py)
  /\ scaleY zoomed = scaleX zoomed
  /\ (scaleX zoomed == scaleX stage * scaleBy
      \/ scaleX zoomed == scaleX stage / scaleBy).
Proof.
  intros Hs zoomed.
  pose proof (handleWheel_scale_nonzero deltaY ctrlKey px py stage Hs) as Hz.
  fold zoomed in Hz.
  pose proof (handleWheel_shape deltaY ctrlKey px py stage) as Hshape.
  fold zoomed in Hshape.
  split; [|split; [|split]].
  - unfold canvasPoint. cbn [fst]. rewrite Hshape at 1. cbn [stageX scaleX].
    clear Hshape. clearbody zoomed. field. split; assumption.
  - unfold canvasPoint. cbn [snd]. rewrite Hshape at 1. cbn [stageY scaleX].
    clear Hshape. clearbody zoomed. field. split; assumption.
  - rewrite Hshape. reflexivity.
  - apply handleWheel_scale.
Qed.

(** The wheel zooms in when exactly one of "turned down" and "control
    held" is the case. *)
Lemma handleWheel_direction (deltaY : Q) (ctrlKey : bool) (px py : Q)
    (stage : Stage) :
  scaleX (handleWheel deltaY ctrlKey px py stage)
  = if xorb (Qgt_bool deltaY 0) ctrlKey
    then scaleX stage * scaleBy else scaleX stage / scaleBy.
Proof.
  unfold handleWheel. cbn [scaleX].
  destruct (Qgt_bool deltaY 0), ctrlKey; reflexivity.
Qed.

(** X8.  A turn of the wheel down followed by a turn that is not down
    (up, or no vertical turn at all), at the same pointer and with the
    control key held the same way, brings the scale and the position of
    the stage back to what they were, the scale not being zero. *)
Theorem handleWheel_there_and_back (down other : Q) (ctrlKey : bool)
    (px py : Q) (stage : Stage) :
  ~ scaleX stage == 0 ->
  0 < down -> other <= 0 ->
  let back :=
    handleWheel other ctrlKey px py (handleWheel down ctrlKey px py stage) in
  scaleX back == scaleX stage
  /\ stageX back == stageX stage
  /\ stageY back == stageY stage.
Proof.
  intros Hs Hdown Hother back.
  assert (Ed : Qgt_bool down 0 = true) by now apply Qgt_bool_iff.
  assert (Eo : Qgt_bool other 0 = false).
  { apply not_true_iff_false. intros H. apply Qgt_bool_iff in H.
    exact (Qlt_not_le _ _ H Hother). }
  set (mid := handleWheel down ctrlKey px py stage) in *.
  pose proof (handleWheel_scale_nonzero down ctrlKey px py stage Hs) as Hm.
  fold mid in Hm.
  pose proof (handleWheel_direction down ctrlKey px py stage) as Dm.
  fold mid in Dm. rewrite Ed in Dm.
  pose proof (handleWheel_direction other ctrlKey px py mid) as Db.
  fold back in Db. rewrite Eo in Db.
  pose proof (handleWheel_shape down ctrlKey px py stage) as Sm.
  fold mid in Sm. cbv zeta in Sm.
  pose proof (handleWheel_shape other ctrlKey px py mid) as Sb.
  fold back in Sb. cbv zeta in Sb.
  assert (Eback : scaleX back == scaleX stage).
  { rewrite Db, Dm. destruct ctrlKey; cbn [xorb]; field;
      exact scaleBy_nonzero. }
  split; [exact Eback|].
  rewrite Sb. cbn [stageX stageY]. rewrite Eback.
  rewrite Sm. cbn [stageX stageY scaleX].
  clear Sm Sb Db Dm Eback. clearbody mid back.
  split; field; split; assumption.
Qed.

Example handleWheel_there_and_back_witness :
  let stage := mkStage (4 # 5) (4 # 5) 30 (-20) in
  let back :=
    handleWheel (-100) false 250 130 (handleWheel 100 false 250 130 stage) in
  scaleX back == 4 # 5 /\ stageX back == 30 /\ stageY back == -20.
Proof.
  cbv zeta.
  apply (handleWheel_there_and_back 100 (-100) false 250 130
           (mkStage (4 # 5) (4 # 5) 30 (-20))).
  - intros H. discriminate H.
  - reflexivity.
  - discriminate.
Defined.

Example handleWheel_keeps_pointed_point_witness :
  let stage := mkStage (4 # 5) (4 # 5) 30 (-20) in
  let zoomed := handleWheel 100 false 250 130 stage in
  fst (canvasPoint zoomed 250 130) == 275
  /\ scaleX zoomed == 22 # 25.
Proof.
  cbv zeta.
  destruct (handleWheel_keeps_pointed_point 100 false 250 130
              (mkStage (4 # 5) (4 # 5) 30 (-20)))
    as (Hx & _ & _ & _).
  - intros H. discriminate H.
  - split; [cbv zeta in Hx; rewrite Hx|]; reflexivity.
Defined.
End CanvasMyMore.

(** ** The multi-floor editor *)

Module FloorPlanMore.

Import FloorPlan FloorPlanFacts.
Local Open Scope Q_scope.

(** *** The active floor *)

Lemma floor_eta (f : Floor.FloorData) :
  Floor.mkFloorData (Floor.id f) (Floor.name f) (Floor.tables f) = f.
Proof. now destruct f. Qed.

Lemma find_floor (fs : list Floor.FloorData) (i : string) :
  In i (map Floor.id fs) ->
  exists floor,
    find (fun floor => String.eqb (Floor.id floor) i) fs = Some floor
    /\ In floor fs /\ Floor.id floor = i.
Proof.
  intros Hin. apply in_map_iff in Hin. destruct Hin as (g & Hg & Hin).
  destruct (find (fun floor => String.eqb (Floor.id floor) i) fs)
    as [floor|] eqn:E.
  - exists floor. apply find_some in E. destruct E as [Hf Hid].
    apply String.eqb_eq in Hid. auto.
  - exfalso. apply (find_none _ _ E) in Hin.
    apply String.eqb_neq in Hin. now apply Hin.
Qed.

Lemma in_filter_ids (fs : list Floor.FloorData) (gone i : string) :
  In i (map Floor.id fs) -> i <> gone ->
  In i (map Floor.id
          (filter (fun floor => negb (String.eqb (Floor.id floor) gone)) fs)).
Proof.
  intros Hin Hne. apply in_map_iff in Hin. destruct Hin as (g & Hg & Hin).
  apply in_map_iff. exists g. split; [exact Hg|].
  apply filter_In. split; [exact Hin|].
  apply negb_true_iff, String.eqb_neq. congruence.
Qed.

Lemma activeStored_onCurrentFloor f (s : State) :
  activeStored s -> activeStored (onCurrentFloor f s).
Proof.
  unfold activeStored, floorIds. now rewrite floors_onCurrentFloor_ids.
Qed.

Lemma activeStored_loaded (fs : list Floor.FloorData) (s : State) :
  soundFloors fs ->
  activeStored
    (match fs with
     | first :: _ => setCurrentFloorId (setFloors s fs) (Floor.id first)
     | [] => setFloors s fs
     end).
Proof.
  intros [Hne _]. destruct fs as [|first rest]; [congruence|].
  left. reflexivity.
Qed.

Lemma step_keeps_activeStored (c : Command) (w : World) :
  freshId c w -> fromFloorTabs c w ->
  soundFloors (floors (state w)) -> soundSaved (saved w) ->
  activeStored (state w) -> activeStored (state (step c w)).
Proof.
  intros Hfresh Htabs Hfl Hsv Hact.
  destruct c; cbn [step state]; try exact Hact;
    try (now apply activeStored_onCurrentFloor).
  - (* AddFloor *)
    unfold handleAddFloor.
    destruct (isEmptyString (trim (newFloorName (state w)))); [exact Hact|].
    unfold activeStored, floorIds.
    cbn [snd floors currentFloorId setNewFloorName setCurrentFloorId
           setFloors].
    rewrite map_app. apply in_or_app. right. left. reflexivity.
  - (* SwitchFloor *)
    exact Htabs.
  - (* DeleteFloor *)
    unfold handleDeleteFloor.
    destruct (List.length (floors (state w)) <=? 1)%nat eqn:Elen;
      [exact Hact|].
    apply Nat.leb_gt in Elen.
    destruct confirmDelete; cbn [negb]; [|exact Hact].
    destruct (soundFloors_delete floorId (floors (state w)) (proj2 Hfl))
      as [Hne _]; [lia|].
    destruct (String.eqb floorId (currentFloorId (state w))) eqn:Ecur.
    + destruct (filter _ (floors (state w))) as [|first rest];
        [congruence|].
      left. reflexivity.
    + apply String.eqb_neq in Ecur.
      unfold activeStored, floorIds. cbn [snd floors currentFloorId setFloors].
      apply in_filter_ids; [exact Hact | congruence].
  - (* SelectTable *)
    unfold handleTableSelect.
    destruct (selectedTable (state w)) as [cur|];
      [destruct (String.eqb tableId cur)|];
      try exact Hact;
      destruct (find _ (tables (state w))); exact Hact.
  - (* RemoveTable *)
    unfold handleRemoveTable.
    destruct (selectedTable (state w)) as [sel|]; [|exact Hact].
    destruct (isEmptyString sel); [exact Hact|].
    exact (activeStored_onCurrentFloor _ (state w) Hact).
  - (* UpdateSeats *)
    unfold handleUpdateTableSeats.
    destruct (selectedTable (state w)) as [sel|]; [|exact Hact].
    destruct (isEmptyString sel); [exact Hact|].
    now apply activeStored_onCurrentFloor.
  - (* UpdateName *)
    unfold handleUpdateTableName.
    destruct (selectedTable (state w)) as [sel|]; [|exact Hact].
    destruct (isEmptyString sel); [exact Hact|].
    now apply activeStored_onCurrentFloor.
  - (* LoadLayout *)
    unfold handleLoadLayout.
    destruct (saved w) as [| |parsed]; try exact Hact.
    cbn [soundSaved] in Hsv.
    destruct (blobFloors parsed) as [fs|]; [|exact Hact].
    cbn [snd].
    exact (activeStored_loaded fs (state w) Hsv).
Qed.

Lemma onPage_sound (found : SavedLayout) (w : World) :
  soundSaved found -> onPage found w ->
  (soundFloors (floors (state w)) /\ soundSaved (saved w))
  /\ activeStored (state w).
Proof.
  intros Hsv Hpage. induction Hpage as [|c w Hpage [[Hfl Hs] Hact] Hfresh Htabs].
  - split; [now apply mount_sound|].
    unfold mount, loadOnMount. cbn [state].
    destruct found as [| |parsed]; try (left; reflexivity).
    cbn [soundSaved] in Hsv.
    destruct (blobFloors parsed) as [fs|]; [|left; reflexivity].
    exact (activeStored_loaded fs initialState Hsv).
  - split.
    + apply step_keeps_sound; [exact Hfresh | split; assumption].
    + now apply step_keeps_activeStored.
Qed.

(** X10.  On the page, started from a saved layout that brings in no
    floor list or a non-empty one with distinct ids, the active floor id
    always names a stored floor: the floor whose tables are shown is the
    floor the table handlers edit, never the fallback [floors[0]]. *)
Theorem active_floor_is_stored (found : SavedLayout) (w : World) :
  soundSaved found -> onPage found w ->
  exists floor,
    In floor (floors (state w))
    /\ Floor.id floor = currentFloorId (state w)
    /\ currentFloor (state w) = Some floor
    /\ tables (state w) = Floor.tables floor.
Proof.
  intros Hsv Hpage.
  destruct (onPage_sound found w Hsv Hpage) as [_ Hact].
  destruct (find_floor _ _ Hact) as (floor & Hfind & Hin & Hid).
  exists floor. unfold tables, currentFloor. rewrite Hfind. auto.
Qed.

(** The first floor deleted while shown: the added floor becomes the
    active one. *)
Example active_floor_is_stored_witness :
  let session :=
    [TypeFloorName "Bar"; AddFloor 1700000000000;
     SwitchFloor "floor-1"; DeleteFloor "floor-1" true] in
  exists floor,
    In floor (floors (state (run session (mount NotSaved))))
    /\ Floor.id floor = currentFloorId (state (run session (mount NotSaved))).
Proof.
  cbv zeta.
  destruct (active_floor_is_stored NotSaved
              (run [TypeFloorName "Bar"; AddFloor 1700000000000;
                    SwitchFloor "floor-1"; DeleteFloor "floor-1" true]
                   (mount NotSaved)) I)
    as (floor & Hin & Hid & _).
  - cbn [run fold_left].
    repeat apply page_step; try exact I; try apply page_mount;
      vm_compute; intuition discriminate.
  - exists floor. split; assumption.
Defined.

(** *** Tables are edited on the active floor only *)

Lemma Forall2_same (R : Floor.FloorData -> Floor.FloorData -> Prop)
    (fs : list Floor.FloorData) :
  (forall f, R f f) -> Forall2 R fs fs.
Proof. intros H. induction fs; constructor; auto. Qed.

Lemma sameFloor_refl (current : string) (f : Floor.FloorData) :
  sameFloor current f f.
Proof. unfold sameFloor. tauto. Qed.

Lemma onCurrentFloor_sameFloor f (s : State) :
  Forall2 (sameFloor (currentFloorId s)) (floors s)
          (floors (onCurrentFloor f s)).
Proof.
  unfold onCurrentFloor. cbn [floors setFloors].
  induction (floors s) as [|floor fs IH]; cbn [map]; constructor; [|exact IH].
  destruct (String.eqb (Floor.id floor) (currentFloorId s)) eqn:E;
    cbn [negb].
  - apply String.eqb_eq in E. unfold sameFloor. cbn. tauto.
  - apply sameFloor_refl.
Qed.

(** X11.  A command that edits tables (drag, rotate, add, remove, change
    of seats or name) keeps the floors in number and order, keeps the id
    and the name of each, leaves every floor but those with the active id
    exactly as it was, and changes neither the active floor nor what is
    saved. *)
Theorem table_edits_stay_on_active_floor (c : Command) (w : World) :
  editsTables c = true ->
  Forall2 (sameFloor (currentFloorId (state w)))
          (floors (state w)) (floors (state (step c w)))
  /\ currentFloorId (state (step c w)) = currentFloorId (state w)
  /\ saved (step c w) = saved w.
Proof.
  intros Hc.
  destruct c; try discriminate Hc; cbn [step state saved];
    (split; [|split; [|reflexivity]]);
    unfold handleTableDragEnd, handleTableRotate, handleAddTable,
      handleRemoveTable, handleUpdateTableSeats, handleUpdateTableName;
    try (destruct (selectedTable (state w)) as [sel|];
         [destruct (isEmptyString sel)|]);
    try reflexivity;
    try apply onCurrentFloor_sameFloor;
    apply Forall2_same, sameFloor_refl.
Qed.

Example table_edits_stay_on_active_floor_witness :
  let w := mount NotSaved in
  currentFloorId (state (step (AddTable 1700000000000) w)) = "floor-1"%string
  /\ saved (step (AddTable 1700000000000) w) = NotSaved.
Proof.
  cbv zeta.
  exact (proj2 (table_edits_stay_on_active_floor (AddTable 1700000000000)
                  (mount NotSaved) eq_refl)).
Defined.

Lemma map_other_floors (fs : list Floor.FloorData) (i : string)
    (g : Floor.FloorData -> Floor.FloorData) :
  ~ In i (map Floor.id fs) ->
  map (fun floor =>
         if negb (String.eqb (Floor.id floor) i) then floor else g floor) fs
  = fs.
Proof.
  induction fs as [|f fs IH]; intros Hnotin; [reflexivity|].
  cbn [map] in *. destruct (String.eqb (Floor.id f) i) eqn:E; cbn [negb].
  - apply String.eqb_eq in E. exfalso. apply Hnotin. now left.
  - f_equal. apply IH. intros H. apply Hnotin. now right.
Qed.

Lemma onCurrentFloor_at f (s : State) (before after : list Floor.FloorData)
    (floor : Floor.FloorData) :
  NoDup (floorIds s) ->
  floors s = before ++ floor :: after ->
  Floor.id floor = currentFloorId s ->
  floors (onCurrentFloor f s)
  = before
    ++ Floor.mkFloorData (Floor.id floor) (Floor.name floor)
                         (f (Floor.tables floor))
    :: after.
Proof.
  unfold floorIds, onCurrentFloor. intros Hnd Hsplit Hid.
  cbn [floors setFloors]. rewrite Hsplit in *.
  rewrite map_app in Hnd. cbn [map] in Hnd.
  pose proof (NoDup_remove_2 _ _ _ Hnd) as Hnotin. rewrite Hid in Hnotin.
  rewrite map_app. cbn [map]. rewrite Hid, String.eqb_refl. cbn [negb].
  rewrite !map_other_floors; [reflexivity| |];
    intros H; apply Hnotin; apply in_or_app; tauto.
Qed.

Lemma tables_at (s : State) (before after : list Floor.FloorData)
    (floor : Floor.FloorData) :
  NoDup (floorIds s) ->
  floors s = before ++ floor :: after ->
  Floor.id floor = currentFloorId s ->
  tables s = Floor.tables floor.
Proof.
  intros Hnd Hsplit Hid. unfold tables, currentFloor, floorIds in *.
  rewrite Hsplit in *. rewrite map_app in Hnd. cbn [map] in Hnd.
  pose proof (NoDup_remove_2 _ _ _ Hnd) as Hnotin. rewrite Hid in Hnotin.
  assert (Hfind :
    find (fun g => String.eqb (Floor.id g) (currentFloorId s))
         (before ++ floor :: after) = Some floor).
  { clear Hsplit Hnd. induction before as [|b before IH]; cbn [app find].
    - now rewrite Hid, String.eqb_refl.
    - destruct (String.eqb (Floor.id b) (currentFloorId s)) eqn:E.
      + apply String.eqb_eq in E. exfalso. apply Hnotin. cbn. now left.
      + apply IH. intros H. apply Hnotin. cbn. now right. }
  now rewrite Hfind.
Qed.

(** X12.  With distinct floor ids and the active floor stored,
    [handleAddTable] appends exactly one table to the active floor and
    selects it: centred at 50 percent both ways, not rotated, with the
    chosen seats, shape and size, and named as typed or, the name field
    being empty, "T" followed by one more than the number of tables the
    active floor had.  All other floors stay as they were. *)
Theorem handleAddTable_spec (now : N) (s : State)
    (before after : list Floor.FloorData) (floor : Floor.FloorData) :
  NoDup (floorIds s) ->
  floors s = before ++ floor :: after ->
  Floor.id floor = currentFloorId s ->
  let tableName :=
    if isEmptyString (newTableName s)
    then String.append "T"
           (decimal (N.of_nat (List.length (Floor.tables floor) + 1)))
    else newTableName s in
  let newTable :=
    mkTableData (decimal now) 50 50 (newTableSeats s) (newTableType s)
                (newTableSize s) 0 (Some tableName) in
  floors (handleAddTable now s)
  = before
    ++ Floor.mkFloorData (Floor.id floor) (Floor.name floor)
                         (Floor.tables floor ++ [newTable])
    :: after
  /\ selectedTable (handleAddTable now s) = Some (decimal now)
  /\ newTableName (handleAddTable now s) = ""%string.
Proof.
  intros Hnd Hsplit Hid tableName newTable.
  unfold handleAddTable.
  cbn [floors selectedTable newTableName setNewTableName setSelectedTable id].
  split; [|split; reflexivity].
  rewrite (onCurrentFloor_at _ s before after floor Hnd Hsplit Hid).
  rewrite (tables_at s before after floor Hnd Hsplit Hid).
  reflexivity.
Qed.

Example handleAddTable_spec_witness :
  exists added,
    floors (handleAddTable 1700000000000 initialState)
    = [Floor.mkFloorData "floor-1" "Floor 1"
         (flat_map Floor.tables initialFloors ++ [added])]
    /\ name added = Some "T4"%string
    /\ id added = "1700000000000"%string.
Proof.
  eexists. split.
  - apply (proj1 (handleAddTable_spec 1700000000000 initialState []
                    [] (hd (Floor.mkFloorData "" "" []) initialFloors)
                    ltac:(repeat constructor; intros [])
                    eq_refl eq_refl)).
  - split; vm_compute; reflexivity.
Defined.
(** *** Adding and removing *)

Lemma decimal_nonempty (n : N) : isEmptyString (decimal n) = false.
Proof.
  unfold decimal, DecimalString.NilZero.string_of_uint.
  destruct (N.to_uint n); reflexivity.
Qed.

Lemma blank_nonempty (v : string) :
  blank v = false -> isEmptyString v = false.
Proof. destruct v; [discriminate | reflexivity]. Qed.

Lemma filter_fresh_table (ts : list TableData) (added : TableData) :
  ~ In (id added) (map id ts) ->
  filter (fun table => negb (String.eqb (id table) (id added)))
         (ts ++ [added])
  = ts.
Proof.
  intros Hfresh. rewrite filter_app. cbn [filter].
  rewrite String.eqb_refl. cbn [negb]. rewrite app_nil_r.
  apply forallb_filter_id, forallb_forall. intros t Ht.
  apply negb_true_iff, String.eqb_neq. intros E. apply Hfresh.
  rewrite <- E. now apply in_map.
Qed.

(** X13.  [handleAddTable] followed by [handleRemoveTable] gives the
    floors back as they were and leaves no table selected, provided the id
    made of the time is not yet the id of a table on a floor with the
    active id. *)
Theorem add_then_remove_table (now : N) (s : State) :
  (forall floor, In floor (floors s) ->
                 Floor.id floor = currentFloorId s ->
                 ~ In (decimal now) (map id (Floor.tables floor))) ->
  floors (handleRemoveTable (handleAddTable now s)) = floors s
  /\ selectedTable (handleRemoveTable (handleAddTable now s)) = None.
Proof.
  intros Hfresh. unfold handleRemoveTable, handleAddTable.
  cbn [selectedTable setNewTableName setSelectedTable id].
  rewrite decimal_nonempty. split; [|reflexivity].
  unfold onCurrentFloor.
  cbn [floors currentFloorId setFloors setNewTableName setSelectedTable].
  rewrite map_map. rewrite <- (map_id (floors s)) at 2.
  apply map_ext_in. intros floor Hin.
  destruct (String.eqb (Floor.id floor) (currentFloorId s)) eqn:E;
    cbn [negb Floor.id Floor.name Floor.tables]; rewrite E; cbn [negb];
    [|reflexivity].
  apply String.eqb_eq in E.
  set (added := mkTableData (decimal now) _ _ _ _ _ _ _).
  change (decimal now) with (id added).
  rewrite filter_fresh_table; [apply floor_eta|].
  exact (Hfresh floor Hin E).
Qed.

Example add_then_remove_table_witness :
  floors (handleRemoveTable (handleAddTable 1700000000000 initialState))
  = initialFloors.
Proof.
  refine (proj1 (add_then_remove_table 1700000000000 initialState _)).
  intros floor [<- | []] _. vm_compute. intuition discriminate.
Defined.

Lemma onCurrentFloor_new_floor f (s : State) (newFloor : Floor.FloorData) :
  ~ In (Floor.id newFloor) (floorIds s) ->
  Floor.tables newFloor = [] -> f [] = [] ->
  let s1 := setCurrentFloorId (setFloors s (floors s ++ [newFloor]))
                              (Floor.id newFloor) in
  floors (onCurrentFloor f s1) = floors s1.
Proof.
  intros Hfresh Hempty Hf. unfold onCurrentFloor.
  cbn [floors currentFloorId setFloors setCurrentFloorId].
  rewrite map_app, map_other_floors by exact Hfresh.
  cbn [map]. rewrite String.eqb_refl. cbn [negb].
  rewrite Hempty, Hf, <- Hempty. now rewrite floor_eta.
Qed.

(** X14.  Adding a floor keeps the table selection although the new,
    empty floor becomes the active one: until the user switches back, the
    selected table can be neither removed nor renamed nor given other
    seats, and "Remove Table" merely drops the selection. *)
Theorem selection_survives_new_floor (now : N) (s : State) (v : string)
    (n : Z) :
  blank (newFloorName s) = false ->
  ~ In (String.append "floor-" (decimal now)) (floorIds s) ->
  let s1 := snd (handleAddFloor now s) in
  selectedTable s1 = selectedTable s
  /\ floors s1
     = floors s
       ++ [Floor.mkFloorData (String.append "floor-" (decimal now))
                             (newFloorName s) []]
  /\ floors (handleRemoveTable s1) = floors s1
  /\ floors (handleUpdateTableName v s1) = floors s1
  /\ floors (handleUpdateTableSeats n s1) = floors s1.
Proof.
  intros Hname Hfresh. unfold handleAddFloor.
  rewrite trim_blank, Hname. cbn [snd]. cbv zeta.
  set (newFloor := Floor.mkFloorData _ (newFloorName s) []).
  assert (Hedit : forall f sel,
            f [] = [] ->
            floors (onCurrentFloor f
                      (setNewFloorName
                         (setCurrentFloorId
                            (setFloors s (floors s ++ [newFloor]))
                            (Floor.id newFloor)) sel))
            = floors s ++ [newFloor]).
  { intros f sel Hf.
    exact (onCurrentFloor_new_floor f s newFloor Hfresh eq_refl Hf). }
  split; [reflexivity|]. split; [reflexivity|].
  unfold handleRemoveTable, handleUpdateTableName, handleUpdateTableSeats.
  cbn [selectedTable setNewFloorName setCurrentFloorId setFloors].
  destruct (selectedTable s) as [sel|]; [|repeat split].
  destruct (isEmptyString sel); [repeat split|].
  cbn [floors setSelectedTable].
  repeat split; apply Hedit; reflexivity.
Qed.

Example selection_survives_new_floor_witness :
  let s := setNewFloorName (handleTableSelect "2" initialState) "Bar" in
  let s1 := snd (handleAddFloor 1700000000000 s) in
  selectedTable s1 = Some "2"%string
  /\ floors (handleRemoveTable s1) = floors s1.
Proof.
  cbv zeta.
  destruct (selection_survives_new_floor 1700000000000
              (setNewFloorName (handleTableSelect "2" initialState) "Bar")
              "" 0) as (Hsel & _ & Hremove & _).
  - reflexivity.
  - vm_compute. intuition discriminate.
  - split; [exact Hsel | exact Hremove].
Defined.
(** *** Saving and loading *)

(** X15.  A layout saved under a name that is not blank comes back by
    "Load Saved Layout" whatever was done in between: the floors and the
    layout name are those of the moment of saving, no table is selected,
    and the active floor is the first saved floor, not the one that was
    active.  Under a blank name nothing is saved. *)
Theorem save_then_load (before : SavedLayout) (s later : State) :
  (blank (layoutName s) = true ->
     snd (handleSaveLayout before s) = before)
  /\ (blank (layoutName s) = false ->
      let loaded :=
        snd (handleLoadLayout (snd (handleSaveLayout before s)) later) in
      floors loaded = floors s
      /\ layoutName loaded = layoutName s
      /\ selectedTable loaded = None
      /\ currentFloorId loaded
         = match floors s with
           | first :: _ => Floor.id first
           | [] => currentFloorId later
           end).
Proof.
  unfold handleSaveLayout. rewrite trim_blank. split.
  - intros ->. reflexivity.
  - intros Hb. rewrite Hb. cbn [snd]. unfold handleLoadLayout.
    cbn [blobFloors blobName snd orElse].
    rewrite (blank_nonempty _ Hb).
    destruct (floors s) as [|first rest] eqn:E; repeat split.
Qed.

Example save_then_load_witness :
  let s := setLayoutName (setCurrentFloorId initialState "floor-9") "Bar" in
  let loaded :=
    snd (handleLoadLayout (snd (handleSaveLayout NotSaved s))
                          (setFloors s [])) in
  floors loaded = initialFloors
  /\ currentFloorId loaded = "floor-1"%string.
Proof.
  cbv zeta.
  destruct (proj2 (save_then_load NotSaved
                     (setLayoutName
                        (setCurrentFloorId initialState "floor-9") "Bar")
                     (setFloors
                        (setLayoutName
                           (setCurrentFloorId initialState "floor-9") "Bar")
                        []))
                  eq_refl) as (Hfloors & _ & _ & Hcurrent).
  split; [exact Hfloors | exact Hcurrent].
Defined.

(** *** Deleting a floor *)

Lemma filter_floor_at (before after : list Floor.FloorData)
    (floor : Floor.FloorData) :
  NoDup (map Floor.id (before ++ floor :: after)) ->
  filter (fun g => negb (String.eqb (Floor.id g) (Floor.id floor)))
         (before ++ floor :: after)
  = before ++ after.
Proof.
  intros Hnd. rewrite map_app in Hnd. cbn [map] in Hnd.
  pose proof (NoDup_remove_2 _ _ _ Hnd) as Hnotin.
  rewrite filter_app. cbn [filter]. rewrite String.eqb_refl. cbn [negb].
  f_equal; apply forallb_filter_id, forallb_forall; intros g Hg;
    apply negb_true_iff, String.eqb_neq; intros E; apply Hnotin;
    rewrite <- E; apply in_or_app; [left | right]; now apply in_map.
Qed.

(** X16.  With distinct floor ids, a confirmed delete of one of two or
    more floors takes that floor with its tables and nothing else: the
    other floors stay, in their order; the active floor stays the active
    one unless it was the deleted floor, and the table selection stays
    even then. *)
Theorem handleDeleteFloor_takes_one (s : State)
    (before after : list Floor.FloorData) (floor : Floor.FloorData) :
  NoDup (floorIds s) ->
  floors s = before ++ floor :: after ->
  before ++ after <> [] ->
  let s' := snd (handleDeleteFloor (Floor.id floor) true s) in
  floors s' = before ++ after
  /\ selectedTable s' = selectedTable s
  /\ (Floor.id floor <> currentFloorId s ->
      currentFloorId s' = currentFloorId s)
  /\ (Floor.id floor = currentFloorId s ->
      exists first rest,
        before ++ after = first :: rest
        /\ currentFloorId s' = Floor.id first).
Proof.
  unfold floorIds. intros Hnd Hsplit Hrest. cbv zeta.
  unfold handleDeleteFloor.
  assert (Hlen : (List.length (floors s) <=? 1)%nat = false).
  { apply Nat.leb_gt. rewrite Hsplit, length_app. cbn [List.length].
    destruct before, after; cbn [List.length app] in *;
      try lia; congruence. }
  rewrite Hlen. cbn [negb].
  assert (Hfilter :
    filter (fun g => negb (String.eqb (Floor.id g) (Floor.id floor)))
           (floors s) = before ++ after).
  { rewrite Hsplit in *. now apply filter_floor_at. }
  rewrite Hfilter.
  destruct (String.eqb (Floor.id floor) (currentFloorId s)) eqn:E.
  - apply String.eqb_eq in E.
    destruct (before ++ after) as [|first rest] eqn:Eleft; [congruence|].
    cbn [snd floors selectedTable currentFloorId setCurrentFloorId setFloors].
    split; [reflexivity|]. split; [reflexivity|]. split.
    + intros Hne. now contradiction Hne.
    + intros _. now exists first, rest.
  - apply String.eqb_neq in E.
    cbn [snd floors selectedTable currentFloorId setFloors].
    split; [reflexivity|]. split; [reflexivity|]. split.
    + reflexivity.
    + intros Heq. now contradiction E.
Qed.

Example handleDeleteFloor_takes_one_witness :
  let bar := Floor.mkFloorData "floor-5" "Bar" [] in
  let s := setFloors initialState (initialFloors ++ [bar]) in
  floors (snd (handleDeleteFloor "floor-5" true s)) = initialFloors.
Proof.
  cbv zeta.
  refine (proj1 (handleDeleteFloor_takes_one
                   (setFloors initialState
                      (initialFloors
                       ++ [Floor.mkFloorData "floor-5" "Bar" []]))
                   initialFloors [] (Floor.mkFloorData "floor-5" "Bar" [])
                   _ eq_refl _)).
  - repeat constructor; cbn; intuition discriminate.
  - discriminate.
Defined.

(** *** Where tables are drawn *)

(** X17.  After [handleTableDragEnd], on a stage whose sides are not
    zero, every table of the dragged id on a floor with the active id is
    drawn exactly where it was dropped. *)
Theorem dropped_table_is_drawn_there (tableId : string) (px py : Q)
    (s : State) (floor : Floor.FloorData) (table : TableData) :
  ~ stageWidth s == 0 -> ~ stageHeight s == 0 ->
  let s' := handleTableDragEnd tableId px py s in
  In floor (floors s') ->
  Floor.id floor = currentFloorId s ->
  In table (Floor.tables floor) ->
  id table = tableId ->
  fst (drawnAt s' table) == px /\ snd (drawnAt s' table) == py.
Proof.
  intros Hw Hh s' Hfloor Hactive Htable Hid.
  unfold s', handleTableDragEnd, onCurrentFloor in Hfloor.
  cbn [floors setFloors] in Hfloor.
  apply in_map_iff in Hfloor. destruct Hfloor as (floor0 & Hmade & _).
  destruct (String.eqb (Floor.id floor0) (currentFloorId s)) eqn:E;
    cbn [negb] in Hmade.
  - subst floor. cbn [Floor.tables] in Htable. unfold onTable in Htable.
    apply in_map_iff in Htable. destruct Htable as (table0 & Hmade & _).
    destruct (String.eqb (id table0) tableId) eqn:Et.
    + subst table. unfold drawnAt, fromPercent, toPercent.
      cbn [fst snd xPercent yPercent].
      change (stageWidth s') with (stageWidth s).
      change (stageHeight s') with (stageHeight s).
      split; field; assumption.
    + subst table. apply String.eqb_neq in Et. now contradiction Et.
  - subst floor. apply String.eqb_neq in E. now contradiction E.
Qed.

Example dropped_table_is_drawn_there_witness :
  let s' := handleTableDragEnd "2" 640 150 initialState in
  exists table,
    In table (tables s') /\ id table = "2"%string
    /\ fst (drawnAt s' table) == 640 /\ snd (drawnAt s' table) == 150.
Proof.
  cbv zeta.
  exists (mkTableData "2" (toPercent 640 800) (toPercent 150 600) 4
                      rectangle medium 0 (Some "T2"%string)).
  split; [right; left; reflexivity|]. split; [reflexivity|].
  apply (dropped_table_is_drawn_there "2" 640 150 initialState
           (hd (Floor.mkFloorData "" "" [])
               (floors (handleTableDragEnd "2" 640 150 initialState)))).
  - intros H. discriminate H.
  - intros H. discriminate H.
  - left. reflexivity.
  - reflexivity.
  - right. left. reflexivity.
  - reflexivity.
Defined.

(** X18.  A resize keeps the floors, and so every stored percentage, and
    scales the drawing with the stage: with sides and aspect ratio not
    zero, a table is drawn at its old place multiplied by new side over
    old side, and the new stage has the aspect ratio of the first one. *)
Theorem checkSize_scales_drawing (containerWidth : Q) (s : State)
    (table : TableData) :
  ~ stageWidth s == 0 -> ~ stageHeight s == 0 -> ~ aspectRatio s == 0 ->
  let s' := checkSize containerWidth s in
  floors s' = floors s
  /\ stageWidth s' == aspectRatio s * stageHeight s'
  /\ fst (drawnAt s' table)
     == fst (drawnAt s table) * (stageWidth s' / stageWidth s)
  /\ snd (drawnAt s' table)
     == snd (drawnAt s table) * (stageHeight s' / stageHeight s).
Proof.
  intros Hw Hh Ha. cbv zeta. unfold checkSize, drawnAt, fromPercent.
  cbn [floors stageWidth stageHeight setStage fst snd].
  split; [reflexivity|]. repeat split; field; auto.
Qed.

Example checkSize_scales_drawing_witness :
  let table := mkTableData "3" 50 33.3 6 square large 0 None in
  fst (drawnAt initialState table) == 400
  /\ fst (drawnAt (checkSize 400 initialState) table) == 200
  /\ stageHeight (checkSize 400 initialState) == 300.
Proof.
  cbv zeta. split; [reflexivity|].
  destruct (checkSize_scales_drawing 400 initialState
              (mkTableData "3" 50 33.3 6 square large 0 None))
    as (_ & _ & Hx & _).
  - intros H. discriminate H.
  - intros H. discriminate H.
  - intros H. discriminate H.
  - cbv zeta in Hx. split; [rewrite Hx|]; reflexivity.
Defined.

(** *** An active id that names no floor *)

(** X19.  When the active id names no stored floor, the page shows the
    tables of the first floor (none without floors), yet "Add Table" adds
    to no floor and still selects the id of the table it did not add. *)
Theorem dangling_active_floor (now : N) (s : State) :
  ~ In (currentFloorId s) (floorIds s) ->
  tables s = match floors s with
             | first :: _ => Floor.tables first
             | [] => []
             end
  /\ floors (handleAddTable now s) = floors s
  /\ selectedTable (handleAddTable now s) = Some (decimal now).
Proof.
  intros Hdangling. split; [|split; [|reflexivity]].
  - unfold tables, currentFloor.
    destruct (find _ (floors s)) as [floor|] eqn:E.
    + exfalso. apply find_some in E. destruct E as [Hin Hid].
      apply String.eqb_eq in Hid. apply Hdangling. rewrite <- Hid.
      unfold floorIds. now apply in_map.
    + destruct (floors s); reflexivity.
  - unfold handleAddTable.
    cbn [floors setNewTableName setSelectedTable]. unfold onCurrentFloor.
    cbn [floors setFloors]. now apply map_other_floors.
Qed.

(** The state after the last floor went in a delete that threw. *)
Example dangling_active_floor_witness :
  let s := setFloors initialState [] in
  floors (handleAddTable 1700000000000 s) = []
  /\ selectedTable (handleAddTable 1700000000000 s)
     = Some "1700000000000"%string.
Proof.
  cbv zeta.
  destruct (dangling_active_floor 1700000000000 (setFloors initialState []))
    as (_ & Hfloors & Hsel).
  - intros [].
  - split; [exact Hfloors|]. rewrite Hsel. vm_compute. reflexivity.
Defined.
(** *** The grid *)

Lemma gridLines_inside (side parts : Q) :
  0 < parts ->
  (List.length (gridLines side parts) <= Z.to_nat (Qfloor parts))%nat
  /\ Forall (fun line => 0 <= line /\ line < side) (gridLines side parts).
Proof.
  intros Hparts. unfold gridLines.
  set (spacing := Qmax 50 (side / parts)).
  assert (H50 : 50 <= spacing) by apply Q.le_max_l.
  assert (Hpart : side / parts <= spacing) by apply Q.le_max_r.
  assert (Hpos : 0 < spacing) by lra.
  assert (Hnz : ~ spacing == 0) by lra.
  split.
  - rewrite length_map, length_seq.
    assert (Hle : side / spacing <= parts).
    { apply Qle_shift_div_r; [exact Hpos|].
      assert (E : side == side / parts * parts) by (field; lra).
      rewrite E at 1. rewrite (Qmult_comm parts).
      apply Qmult_le_compat_r; lra. }
    apply Qfloor_resp_le in Hle. lia.
  - apply Forall_forall. intros line Hin.
    apply in_map_iff in Hin. destruct Hin as (i & <- & Hi).
    apply in_seq in Hi.
    assert (Hfloor : (Z.of_nat i + 1 <= Qfloor (side / spacing))%Z) by lia.
    rewrite Zle_Qle in Hfloor.
    pose proof (Qfloor_le (side / spacing)) as Hdown.
    rewrite inject_Z_plus in Hfloor.
    assert (Hnext : (inject_Z (Z.of_nat i) + 1) * spacing <= side).
    { assert (E : side == side / spacing * spacing) by (field; exact Hnz).
      rewrite E. apply Qmult_le_compat_r; [|lra].
      change (inject_Z 1) with 1 in Hfloor. lra. }
    assert (Hi0 : 0 <= inject_Z (Z.of_nat i)).
    { change 0 with (inject_Z 0). rewrite <- Zle_Qle. lia. }
    assert (Hline : 0 <= inject_Z (Z.of_nat i) * spacing)
      by (apply Qmult_le_0_compat; lra).
    split; [exact Hline|]. lra.
Qed.

(** X24.  Whatever the size of the stage, the grid has at most 16
    vertical and at most 12 horizontal lines, and every line lies on the
    stage: at or after its left (top) edge and before its right (bottom)
    edge.  A stage without extent has no lines. *)
Theorem grid_stays_on_stage (s : State) :
  (List.length (verticalGridLines s) <= 16)%nat
  /\ (List.length (horizontalGridLines s) <= 12)%nat
  /\ Forall (fun x => 0 <= x /\ x < stageWidth s) (verticalGridLines s)
  /\ Forall (fun y => 0 <= y /\ y < stageHeight s) (horizontalGridLines s).
Proof.
  unfold verticalGridLines, horizontalGridLines.
  destruct (gridLines_inside (stageWidth s) 16) as [Hv Hvin]; [reflexivity|].
  destruct (gridLines_inside (stageHeight s) 12) as [Hh Hhin]; [reflexivity|].
  repeat split; assumption.
Qed.

Example grid_on_the_first_stage :
  verticalGridLines initialState
  = map (fun i : nat => inject_Z (Z.of_nat i) * Qmax 50 (800 / 16)) (seq 0 16)
  /\ List.length (horizontalGridLines initialState) = 12%nat.
Proof. split; reflexivity. Qed.

End FloorPlanMore.

(** ** The seats of rectangular and square tables *)

Module TableViewMore.

Import FloorPlan TableView Lra.
Local Open Scope R_scope.

Lemma tableScale_pos w h : 0 < tableScale w h.
Proof.
  unfold tableScale. pose proof (Rmax_l (1 / 2) (scaleFactor w h)). lra.
Qed.

(** X20.  The seat markers of a round table stay clear of the table
    disc, marker and disc at most touching, exactly when the scale factor
    of the stage is at least 3/10, that is when the smaller side of the
    stage is at least 240. *)
Theorem round_markers_clear_of_table (sz : TableSize) (w h : R) :
  scaledRadius sz w h + seatRadius w h <= seatDistance sz w h
  <-> 3 / 10 <= scaleFactor w h.
Proof.
  unfold seatDistance, scaledRadius, seatRadius.
  set (sc := scaleFactor w h).
  destruct (Rle_dec (1 / 2) sc) as [Hge | Hlt].
  - rewrite Rmax_right by exact Hge. split; intros; lra.
  - rewrite Rmax_left by lra. split; intros; lra.
Qed.

(** Between the ends of an edge of length [len] cut in [n + 1] equal
    parts, the [p]-th cut lies strictly inside. *)
Lemma cut_inside (len n p : R) :
  0 < len -> 1 <= p -> p <= n ->
  - len / 2 < p * (len / (n + 1)) - len / 2 < len / 2.
Proof.
  intros Hlen Hp Hn.
  assert (Hq : 0 < len / (n + 1)) by (apply Rdiv_lt_0_compat; lra).
  assert (Hs : len / (n + 1) * (n + 1) = len) by (field; lra).
  set (q := len / (n + 1)) in *. split; nra.
Qed.

Lemma seats_per_side (seats : Z) (i : nat) :
  (i < Z.to_nat seats)%nat ->
  let perSide := ((seats + 3) / 4)%Z in
  (1 <= perSide)%Z
  /\ (0 <= Z.of_nat i / perSide <= 3)%Z
  /\ (1 <= Z.of_nat i mod perSide + 1 <= perSide)%Z.
Proof.
  intros Hi perSide.
  assert (Hseats : (Z.of_nat i < seats)%Z) by lia.
  assert (Hper : (1 <= perSide)%Z)
    by (unfold perSide; Z.div_mod_to_equations; lia).
  assert (Hfour : (seats <= perSide * 4)%Z)
    by (unfold perSide; Z.div_mod_to_equations; lia).
  split; [exact Hper|]. split.
  - split; [apply Z.div_pos; lia|].
    assert (Z.of_nat i / perSide < 4)%Z; [|lia].
    apply Z.div_lt_upper_bound; lia.
  - pose proof (Z.mod_pos_bound (Z.of_nat i) perSide ltac:(lia)). lia.
Qed.

Lemma squareSeat_onSide (sz : TableSize) (seats : Z) (w h : R) (i : nat) :
  (i < Z.to_nat seats)%nat ->
  let perSide := ((seats + 3) / 4)%Z in
  let scaledSize := squareWidth sz * tableScale w h in
  squareSeat sz seats w h i
  = onSide (Z.of_nat i / perSide)
      (IZR (Z.of_nat i mod perSide + 1) * (scaledSize / (IZR perSide + 1))
       - scaledSize / 2)
      (scaledSize / 2 + 10 * scaleFactor w h).
Proof.
  intros Hi perSide scaledSize.
  destruct (seats_per_side seats i Hi) as (_ & Hside & _).
  fold perSide in Hside. unfold squareSeat. fold perSide. fold scaledSize.
  assert (Hcases : (Z.of_nat i / perSide = 0 \/ Z.of_nat i / perSide = 1
                    \/ Z.of_nat i / perSide = 2
                    \/ Z.of_nat i / perSide = 3)%Z) by lia.
  destruct Hcases as [-> | [-> | [-> | ->]]]; unfold onSide;
    f_equal; lra.
Qed.

Lemma squareWidth_pos (sz : TableSize) : 0 < squareWidth sz.
Proof. destruct sz; cbn; lra. Qed.

(** X21.  Every seat marker of a square table with at least one seat
    stands beside one of the four sides, never at the centre: at the
    distance [scaledSize / 2 + 10 * scaleFactor] from the centre line
    and, along the side, strictly between its two corners. *)
Theorem square_markers_beside_the_sides (sz : TableSize) (seats : Z)
    (w h : R) (i : nat) :
  (i < Z.to_nat seats)%nat ->
  let scaledSize := squareWidth sz * tableScale w h in
  let offset := scaledSize / 2 + 10 * scaleFactor w h in
  exists along,
    - scaledSize / 2 < along < scaledSize / 2
    /\ (squareSeat sz seats w h i = (along, - offset)
        \/ squareSeat sz seats w h i = (offset, along)
        \/ squareSeat sz seats w h i = (along, offset)
        \/ squareSeat sz seats w h i = (- offset, along)).
Proof.
  intros Hi scaledSize offset.
  destruct (seats_per_side seats i Hi) as (Hper & Hside & Hpos).
  rewrite (squareSeat_onSide sz seats w h i Hi). cbv zeta.
  fold scaledSize. fold offset.
  set (perSide := ((seats + 3) / 4)%Z) in *.
  eexists. split.
  - apply cut_inside.
    + unfold scaledSize. apply Rmult_lt_0_compat;
        [apply squareWidth_pos | apply tableScale_pos].
    + apply (IZR_le 1). exact (proj1 Hpos).
    + apply IZR_le. exact (proj2 Hpos).
  - assert (Hcases : (Z.of_nat i / perSide = 0 \/ Z.of_nat i / perSide = 1
                      \/ Z.of_nat i / perSide = 2
                      \/ Z.of_nat i / perSide = 3)%Z) by lia.
    destruct Hcases as [-> | [-> | [-> | ->]]]; cbn [onSide]; tauto.
Qed.

(** The fifth of five seats, alone beside the bottom side. *)
Example square_markers_beside_the_sides_witness :
  let scaledSize := squareWidth medium * tableScale 800 600 in
  let offset := scaledSize / 2 + 10 * scaleFactor 800 600 in
  exists along,
    - scaledSize / 2 < along < scaledSize / 2
    /\ (squareSeat medium 5 800 600 4 = (along, - offset)
        \/ squareSeat medium 5 800 600 4 = (offset, along)
        \/ squareSeat medium 5 800 600 4 = (along, offset)
        \/ squareSeat medium 5 800 600 4 = (- offset, along)).
Proof.
  apply (square_markers_beside_the_sides medium 5 800 600 4).
  apply Nat.ltb_lt. reflexivity.
Defined.

Lemma onSide_injective (side side' : Z) (along along' len offset : R) :
  (0 <= side <= 3)%Z -> (0 <= side' <= 3)%Z ->
  0 < len -> len / 2 <= offset ->
  - len / 2 < along < len / 2 -> - len / 2 < along' < len / 2 ->
  onSide side along offset = onSide side' along' offset ->
  side = side' /\ along = along'.
Proof.
  intros Hs Hs' Hlen Hoff Ha Ha' E.
  assert (Hc : (side = 0 \/ side = 1 \/ side = 2 \/ side = 3)%Z) by lia.
  assert (Hc' : (side' = 0 \/ side' = 1 \/ side' = 2 \/ side' = 3)%Z) by lia.
  destruct Hc as [-> | [-> | [-> | ->]]];
    destruct Hc' as [-> | [-> | [-> | ->]]];
    cbn [onSide] in E; apply pair_equal_spec in E; destruct E as [E1 E2];
    first [split; [reflexivity | lra] | exfalso; lra].
Qed.

(** X22.  On a stage of non-negative sides no two seat markers of a
    square table share a spot: different seats get different places. *)
Theorem square_markers_apart (sz : TableSize) (seats : Z) (w h : R)
    (i j : nat) :
  0 <= w -> 0 <= h ->
  (i < Z.to_nat seats)%nat -> (j < Z.to_nat seats)%nat ->
  squareSeat sz seats w h i = squareSeat sz seats w h j ->
  i = j.
Proof.
  intros Hw Hh Hi Hj E.
  rewrite (squareSeat_onSide sz seats w h i Hi) in E.
  rewrite (squareSeat_onSide sz seats w h j Hj) in E. cbv zeta in E.
  destruct (seats_per_side seats i Hi) as (Hper & Hsi & Hpi).
  destruct (seats_per_side seats j Hj) as (_ & Hsj & Hpj).
  set (perSide := ((seats + 3) / 4)%Z) in *.
  set (len := squareWidth sz * tableScale w h) in *.
  assert (Hlen : 0 < len).
  { unfold len. apply Rmult_lt_0_compat;
      [apply squareWidth_pos | apply tableScale_pos]. }
  assert (Hsc : 0 <= scaleFactor w h).
  { unfold scaleFactor. assert (0 <= Rmin w h) by (apply Rmin_glb; lra).
    lra. }
  assert (Hn : 1 <= IZR perSide) by (apply (IZR_le 1); exact Hper).
  assert (Hcut : forall p : Z,
            (1 <= p <= perSide)%Z ->
            - len / 2 < IZR p * (len / (IZR perSide + 1)) - len / 2
                        < len / 2).
  { intros p [Hp1 Hp2]. apply cut_inside; [exact Hlen| |].
    - now apply (IZR_le 1).
    - now apply IZR_le. }
  assert (Hoff : len / 2 <= len / 2 + 10 * scaleFactor w h) by lra.
  destruct (onSide_injective _ _ _ _ len _ Hsi Hsj Hlen Hoff
              (Hcut _ Hpi) (Hcut _ Hpj) E) as [Eside Ealong].
  assert (Hq : 0 < len / (IZR perSide + 1)) by (apply Rdiv_lt_0_compat; lra).
  assert (Ep : IZR (Z.of_nat i mod perSide + 1)
               = IZR (Z.of_nat j mod perSide + 1)) by nra.
  apply eq_IZR in Ep.
  apply Nat2Z.inj.
  rewrite (Z.div_mod (Z.of_nat i) perSide) by lia.
  rewrite (Z.div_mod (Z.of_nat j) perSide) by lia.
  rewrite Eside. f_equal. lia.
Qed.

Example square_markers_apart_witness :
  squareSeat medium 5 800 600 1 <> squareSeat medium 5 800 600 4.
Proof.
  intros E.
  assert (H : 1%nat = 4%nat); [|discriminate H].
  apply (square_markers_apart medium 5 800 600 1 4); try lra; try exact E;
    apply Nat.ltb_lt; reflexivity.
Defined.

Lemma rectangleSeat_short (sz : TableSize) (seats : Z) (w h : R) (i : nat) :
  ((seats + 1) / 2 <= Z.of_nat i)%Z ->
  rectangleSeat sz seats w h i
  = (if Z.even (Z.of_nat i - (seats + 1) / 2)
     then - (rectangleWidth sz * tableScale w h) / 2 - 10 * scaleFactor w h
     else rectangleWidth sz * tableScale w h / 2 + 10 * scaleFactor w h,
     (rectangleHeight sz * tableScale w h / (IZR (seats / 2) + 1))
       * (IZR ((Z.of_nat i - (seats + 1) / 2) mod 2) + 1)
     - rectangleHeight sz * tableScale w h / 2).
Proof.
  intros Hi. unfold rectangleSeat.
  destruct (Z.ltb_spec (Z.of_nat i) ((seats + 1) / 2)) as [Hlt | _];
    [exfalso; apply (Z.lt_irrefl (Z.of_nat i));
     exact (Z.lt_le_trans _ _ _ Hlt Hi)|].
  reflexivity.
Qed.

(** X23.  The seats of a rectangular table beyond the first
    [ceil(seats / 2)] get one of two spots only, one beside each short
    edge: two such seats whose indices differ by an even number are drawn
    on the same spot.  From six seats on this happens, the seats
    [ceil(seats / 2)] and [ceil(seats / 2) + 2] both being drawn. *)
Theorem rectangle_short_edge_markers_coincide (sz : TableSize) (seats : Z)
    (w h : R) :
  (forall i k : nat,
     ((seats + 1) / 2 <= Z.of_nat i)%Z ->
     rectangleSeat sz seats w h (i + 2 * k)
     = rectangleSeat sz seats w h i)
  /\ ((6 <= seats)%Z ->
      let first := Z.to_nat ((seats + 1) / 2) in
      exists spot,
        nth_error (rectangleSeats sz seats w h) first = Some spot
        /\ nth_error (rectangleSeats sz seats w h) (first + 2) = Some spot).
Proof.
  assert (Hsame : forall i k : nat,
            ((seats + 1) / 2 <= Z.of_nat i)%Z ->
            rectangleSeat sz seats w h (i + 2 * k)
            = rectangleSeat sz seats w h i).
  { intros i k Hi.
    rewrite (rectangleSeat_short sz seats w h i Hi).
    rewrite (rectangleSeat_short sz seats w h (i + 2 * k)) by lia.
    set (long := ((seats + 1) / 2)%Z) in *.
    replace (Z.of_nat (i + 2 * k) - long)%Z
      with (Z.of_nat i - long + 2 * Z.of_nat k)%Z by lia.
    rewrite Z.even_add_mul_2.
    replace (Z.of_nat i - long + 2 * Z.of_nat k)%Z
      with (Z.of_nat i - long + Z.of_nat k * 2)%Z by lia.
    rewrite Z.mod_add by lia. reflexivity. }
  split; [exact Hsame|].
  intros Hseats first.
  assert (Hlong : (0 <= (seats + 1) / 2 /\ (seats + 1) / 2 + 2 < seats)%Z)
    by (Z.div_mod_to_equations; lia).
  exists (rectangleSeat sz seats w h first).
  unfold rectangleSeats. rewrite !nth_error_map, !nth_error_seq.
  assert (H1 : (first <? Z.to_nat seats)%nat = true)
    by (apply Nat.ltb_lt; unfold first; lia).
  assert (H2 : (first + 2 <? Z.to_nat seats)%nat = true)
    by (apply Nat.ltb_lt; unfold first; lia).
  rewrite H1, H2. cbn [option_map Nat.add]. split; [reflexivity|].
  f_equal. replace (first + 2)%nat with (first + 2 * 1)%nat by lia.
  apply Hsame. unfold first. lia.
Qed.

(** Six seats: the fourth and the sixth marker are one. *)
Example rectangle_short_edge_markers_coincide_witness :
  exists spot,
    nth_error (rectangleSeats large 6 800 600) 3 = Some spot
    /\ nth_error (rectangleSeats large 6 800 600) 5 = Some spot.
Proof.
  apply (proj2 (rectangle_short_edge_markers_coincide large 6 800 600)).
  discriminate.
Defined.

Lemma rectangleWidth_pos (sz : TableSize) : 0 < rectangleWidth sz.
Proof. destruct sz; cbn; lra. Qed.

(** X25.  The first [ceil(seats / 2)] seats of a rectangular table stand
    along the long edges, above the table when the index is even and
    below it when odd, [10 * scaleFactor] away from the edge and strictly
    between its two corners. *)
Theorem rectangle_long_edge_markers (sz : TableSize) (seats : Z) (w h : R)
    (i : nat) :
  (Z.of_nat i < (seats + 1) / 2)%Z ->
  let scaledWidth := rectangleWidth sz * tableScale w h in
  let scaledHeight := rectangleHeight sz * tableScale w h in
  let offset := scaledHeight / 2 + 10 * scaleFactor w h in
  exists along,
    - scaledWidth / 2 < along < scaledWidth / 2
    /\ rectangleSeat sz seats w h i
       = (along, if Nat.even i then - offset else offset).
Proof.
  intros Hi scaledWidth scaledHeight offset. unfold rectangleSeat.
  apply Z.ltb_lt in Hi. rewrite Hi. apply Z.ltb_lt in Hi.
  fold scaledWidth. fold scaledHeight.
  exists ((INR i + 1) * (scaledWidth / (IZR ((seats + 1) / 2) + 1))
          - scaledWidth / 2).
  split.
  - apply cut_inside.
    + unfold scaledWidth. apply Rmult_lt_0_compat;
        [apply rectangleWidth_pos | apply tableScale_pos].
    + pose proof (pos_INR i). lra.
    + rewrite INR_IZR_INZ. rewrite <- (plus_IZR _ 1). apply IZR_le. lia.
  - f_equal; [ring|]. destruct (Nat.even i); unfold offset; lra.
Qed.

Example rectangle_long_edge_markers_witness :
  let scaledWidth := rectangleWidth large * tableScale 800 600 in
  let offset :=
    rectangleHeight large * tableScale 800 600 / 2
    + 10 * scaleFactor 800 600 in
  exists along,
    - scaledWidth / 2 < along < scaledWidth / 2
    /\ rectangleSeat large 6 800 600 1 = (along, offset).
Proof.
  apply (rectangle_long_edge_markers large 6 800 600 1). reflexivity.
Defined.

End TableViewMore.
